(** * AI Job Source Agent: a shallow embedding and its properties

    The Python sources (models.py, url_validator.py, claude_fallback.py,
    career_finder.py, position_extractor.py, linkedin_fetcher.py,
    pipeline.py, config.py, logger.py, output_manager.py) are embedded as
    Rocq functions.  Python integers are [Z], Python [str] is [string]
    (read as ASCII text), [Optional[str]] is [option string].

    Everything the program does not own -- requests, BeautifulSoup,
    urllib.parse, Playwright, the Anthropic and Apify clients, the clock
    and the file system -- is a field of a [World] record: a table of
    answers the outside gives.  Methods that
    mutate objects or log run in a small monad that threads the object
    store, can raise a Python exception, and writes the list of events
    (log entries, outgoing calls, counter updates) in program order. *)

From Stdlib Require Import String Ascii List ZArith Lia Bool DecimalString.
Import ListNotations.
Open Scope string_scope.
Open Scope Z_scope.

(* ================================================================== *)
(** ** Python string primitives *)
(* ================================================================== *)

Module PyStr.

Definition is_upper (c : ascii) : bool :=
  let n := nat_of_ascii c in (65 <=? n)%nat && (n <=? 90)%nat.

Definition is_lower (c : ascii) : bool :=
  let n := nat_of_ascii c in (97 <=? n)%nat && (n <=? 122)%nat.

Definition lower_ascii (c : ascii) : ascii :=
  if is_upper c then ascii_of_nat (nat_of_ascii c + 32) else c.

Definition upper_ascii (c : ascii) : ascii :=
  if is_lower c then ascii_of_nat (nat_of_ascii c - 32) else c.

(** [s.lower()] and [s.upper()] on ASCII text: the letters A-Z and a-z
    change case, every other character is left as it is. *)
Fixpoint lower (s : string) : string :=
  match s with
  | EmptyString => EmptyString
  | String c r => String (lower_ascii c) (lower r)
  end.

Fixpoint upper (s : string) : string :=
  match s with
  | EmptyString => EmptyString
  | String c r => String (upper_ascii c) (upper r)
  end.

(** [s.startswith(p)] *)
Definition startswith (s p : string) : bool := String.prefix p s.

(** [s.endswith(p)] *)
Definition endswith (s p : string) : bool :=
  (String.length p <=? String.length s)%nat
  && String.eqb
       (substring (String.length s - String.length p) (String.length p) s) p.

(** [needle in hay] *)
Fixpoint contains (needle hay : string) : bool :=
  String.prefix needle hay
  || match hay with
     | EmptyString => false
     | String _ r => contains needle r
     end.

(** Characters removed by [str.strip()] with no argument. *)
Definition is_space (c : ascii) : bool :=
  let n := nat_of_ascii c in
  ((9 <=? n)%nat && (n <=? 13)%nat) || ((28 <=? n)%nat && (n <=? 32)%nat).

Fixpoint lstrip_by (f : ascii -> bool) (s : string) : string :=
  match s with
  | EmptyString => EmptyString
  | String c r => if f c then lstrip_by f r else s
  end.

Fixpoint rstrip_by (f : ascii -> bool) (s : string) : string :=
  match s with
  | EmptyString => EmptyString
  | String c r =>
      match rstrip_by f r with
      | EmptyString => if f c then EmptyString else String c EmptyString
      | r' => String c r'
      end
  end.

(** [s.strip()] *)
Definition strip (s : string) : string :=
  rstrip_by is_space (lstrip_by is_space s).

(** [s.rstrip("/")] *)
Definition rstrip_slash (s : string) : string :=
  rstrip_by (Ascii.eqb "/"%char) s.

(** Truth value of a [str]: the empty string is false. *)
Definition truthy (s : string) : bool :=
  match s with EmptyString => false | _ => true end.

(** [if result:] on an [Optional[str]]: the string the true branch sees. *)
Definition if_result (o : option string) : option string :=
  match o with
  | Some s => if truthy s then Some s else None
  | None => None
  end.

(** [str(n)] for an int *)
Definition str_of_int (n : Z) : string :=
  NilZero.string_of_int (Z.to_int n).

(** [xs[:n]] : a negative bound counts from the end. *)
Definition slice_to {A} (xs : list A) (n : Z) : list A :=
  if 0 <=? n then firstn (Z.to_nat n) xs
  else firstn (length xs - Z.to_nat (- n)) xs.

End PyStr.

(* ================================================================== *)
(** ** Exceptions, events and the effect monad *)
(* ================================================================== *)

(** Python exceptions, split the way the handlers of the program split
    them: [requests.RequestException] (and its subclasses), and every
    other [Exception].  Each carries its class name and its text. *)
Inductive exn : Type :=
| RequestException (name text : string)
| Exception (name text : string).

Definition exn_name (e : exn) : string :=
  match e with RequestException n _ => n | Exception n _ => n end.

Definition exn_text (e : exn) : string :=
  match e with RequestException _ t => t | Exception _ t => t end.

Definition is_request_exception (e : exn) : bool :=
  match e with RequestException _ _ => true | Exception _ _ => false end.

Inductive Outcome (A : Type) : Type :=
| Ok (a : A)
| Raise (e : exn).
Arguments Ok {A} a.
Arguments Raise {A} e.

Inductive Level : Type := INFO | WARNING | ERROR.

(** What a run does that can be observed from outside, in program order. *)
Inductive Event : Type :=
| Log (level : Level) (message : string)   (* Logger._log *)
| Call (method : string)                   (* entry into a tier method *)
| HttpHead (url : string)                  (* requests.head *)
| HttpGet (url : string)                   (* requests.get *)
| AnthropicClient (api_key : string)       (* anthropic.Anthropic(...) *)
| BuildPrompt (company_url : string)       (* _build_prompt *)
| MessagesCreate (prompt : string)         (* client.messages.create *)
| ActorCall (url : string) (max_items : Z) (* Apify actor call *)
| Goto (url : string)                      (* page.goto *)
| QuerySelectorAll (selector : string)     (* page.query_selector_all *)
| PageClose                                (* page.close *)
| IncSuccess (tier : Z)                    (* statistics.increment_success *)
| IncFailure                               (* statistics.increment_failure *)
| IncClaudeCalls                           (* statistics.claude_api_calls += 1 *)
| IncLinkedinCalls                         (* statistics.linkedin_api_calls += 1 *)
| SaveJson (filepath : string)             (* open(filepath, "w"), json.dump *)
| BrowserClose                             (* PositionExtractor.close *)
| SaveLogs (log_file : string).            (* Logger.save_logs *)

(* ================================================================== *)
(** ** models.py *)
(* ================================================================== *)

(** [ExecutionStatistics]; the two datetime fields and the float
    [total_processing_time] are wall-clock readings and are left out. *)
Record ExecutionStatistics : Type := {
  total_processed : Z;
  successful : Z;
  failed : Z;
  tier1_success : Z;
  tier2_success : Z;
  tier3_success : Z;
  claude_api_calls : Z;
  linkedin_api_calls : Z
}.

(** The dataclass defaults. *)
Definition new_statistics : ExecutionStatistics :=
  {| total_processed := 0; successful := 0; failed := 0;
     tier1_success := 0; tier2_success := 0; tier3_success := 0;
     claude_api_calls := 0; linkedin_api_calls := 0 |}.

Definition increment_success (self : ExecutionStatistics) (tier : Z)
  : ExecutionStatistics :=
  {| total_processed := total_processed self + 1;
     successful := successful self + 1;
     failed := failed self;
     tier1_success :=
       if tier =? 1 then tier1_success self + 1 else tier1_success self;
     tier2_success :=
       if tier =? 1 then tier2_success self
       else if tier =? 2 then tier2_success self + 1 else tier2_success self;
     tier3_success :=
       if tier =? 1 then tier3_success self
       else if tier =? 2 then tier3_success self
       else if tier =? 3 then tier3_success self + 1 else tier3_success self;
     claude_api_calls := claude_api_calls self;
     linkedin_api_calls := linkedin_api_calls self |}.

Definition increment_failure (self : ExecutionStatistics)
  : ExecutionStatistics :=
  {| total_processed := total_processed self + 1;
     successful := successful self;
     failed := failed self + 1;
     tier1_success := tier1_success self;
     tier2_success := tier2_success self;
     tier3_success := tier3_success self;
     claude_api_calls := claude_api_calls self;
     linkedin_api_calls := linkedin_api_calls self |}.

Definition add_claude_api_call (self : ExecutionStatistics)
  : ExecutionStatistics :=
  {| total_processed := total_processed self;
     successful := successful self;
     failed := failed self;
     tier1_success := tier1_success self;
     tier2_success := tier2_success self;
     tier3_success := tier3_success self;
     claude_api_calls := claude_api_calls self + 1;
     linkedin_api_calls := linkedin_api_calls self |}.

Definition add_linkedin_api_call (self : ExecutionStatistics)
  : ExecutionStatistics :=
  {| total_processed := total_processed self;
     successful := successful self;
     failed := failed self;
     tier1_success := tier1_success self;
     tier2_success := tier2_success self;
     tier3_success := tier3_success self;
     claude_api_calls := claude_api_calls self;
     linkedin_api_calls := linkedin_api_calls self + 1 |}.

Record CompanyData : Type := {
  company_name : string;
  company_url : string;
  linkedin_job_url : string;
  job_title : string
}.

(** [JobSourceResult]; [timestamp] and [processing_time] are clock
    readings and are left out. *)
Record JobSourceResult : Type := {
  result_company_name : string;
  career_page_url : string;
  open_position_url : string;
  source_tier : Z
}.


(* ================================================================== *)
(** ** config.py *)
(* ================================================================== *)

Record Configuration : Type := {
  apify_token : string;
  anthropic_api_key : string;
  career_paths : list string;
  career_keywords : list string;
  max_claude_calls : Z;
  request_timeout : Z;
  browser_timeout : Z;
  output_dir : string
}.

Definition default_career_paths : list string :=
  [ "/careers"; "/jobs"; "/about/careers"; "/about/jobs"; "/join-us";
    "/work-with-us"; "/career"; "/job-openings"; "/open-positions";
    "/opportunities"; "/en/careers"; "/us/careers"; "/company/careers" ].

Definition default_career_keywords : list string :=
  [ "careers"; "jobs"; "join us"; "opportunities"; "work with us";
    "open positions"; "job openings"; "we're hiring"; "hiring";
    "come work"; "employment" ].

(** [Configuration()]: the two arguments are what the environment holds
    for APIFY_TOKEN and ANTHROPIC_API_KEY (empty when unset). *)
Definition new_configuration (env_apify env_anthropic : string)
  : Configuration :=
  {| apify_token := env_apify;
     anthropic_api_key := env_anthropic;
     career_paths := default_career_paths;
     career_keywords := default_career_keywords;
     max_claude_calls := 50;
     request_timeout := 5;
     browser_timeout := 15000;
     output_dir := "./output" |}.

(** [Configuration.validate] *)
Definition config_validate (self : Configuration) : bool :=
  if negb (PyStr.truthy (apify_token self)) then false else true.

(* ================================================================== *)
(** ** The outside world *)
(* ================================================================== *)

(** A parsed HTML document as BeautifulSoup hands it over: tags with
    their attribute dictionary and children, and text. *)
#[warnings="-register-all"]
Inductive node : Type :=
| Tag (name : string) (attrs : list (string * string)) (children : list node)
| NavigableString (text : string).

(** A node followed by everything below it, in document order. *)
Fixpoint subtree (n : node) : list node :=
  n :: match n with
       | Tag _ _ cs =>
           (fix walk (l : list node) : list node :=
              match l with
              | [] => []
              | c :: l' => (subtree c ++ walk l')%list
              end) cs
       | NavigableString _ => []
       end.

(** [node.descendants] *)
Definition descendants (n : node) : list node := tl (subtree n).

Fixpoint dict_get (d : list (string * string)) (k : string) : option string :=
  match d with
  | [] => None
  | (k', v) :: d' => if String.eqb k' k then Some v else dict_get d' k
  end.

(** [d.get(k, "")] *)
Definition get_or_empty (d : list (string * string)) (k : string) : string :=
  match dict_get d k with Some v => v | None => EmptyString end.

Definition is_tag (name : string) (n : node) : bool :=
  match n with
  | Tag name' _ _ => String.eqb name' name
  | NavigableString _ => false
  end.

Definition has_href (n : node) : bool :=
  match n with
  | Tag _ attrs _ =>
      match dict_get attrs "href" with Some _ => true | None => false end
  | NavigableString _ => false
  end.

(** [node.find_all(name)] *)
Definition find_all (name : string) (n : node) : list node :=
  filter (is_tag name) (descendants n).

(** [node.find_all("a", href=True)] *)
Definition find_all_a_href (n : node) : list node :=
  filter (fun x => is_tag "a" x && has_href x) (descendants n).

(** [link.get("href", "")] *)
Definition get_href (n : node) : string :=
  match n with
  | Tag _ attrs _ => get_or_empty attrs "href"
  | NavigableString _ => EmptyString
  end.

(** [node.get_text(strip=True)]: the text pieces below the node, each
    stripped, the empty ones dropped, joined without a separator. *)
Definition get_text_strip (n : node) : string :=
  fold_right
    (fun x acc =>
       match x with
       | NavigableString t => PyStr.strip t ++ acc
       | Tag _ _ _ => acc
       end)%string
    EmptyString (descendants n).

(** [urllib.parse.urlparse] result, the three parts the program reads. *)
Record ParseResult : Type := {
  scheme : string;
  netloc : string;
  path : string
}.

(** A [requests] response; [soup] is [BeautifulSoup(response.text)]. *)
Record Response : Type := {
  status_code : Z;
  response_url : string;
  soup : node
}.

(** One block of a model reply: a text block has [.text], others do not. *)
Inductive ContentBlock : Type :=
| TextBlock (text : string)
| OtherBlock.

Record Message : Type := { content : list ContentBlock }.

(** A Playwright element handle: what [get_attribute("href")] gives. *)
Record ElementHandle : Type := {
  get_attribute_href : Outcome (option string)
}.

(** A rendered Playwright page. *)
Record Page : Type := {
  query_selector_all : string -> Outcome (list ElementHandle);
  page_close : Outcome unit
}.

(** A raw listing item of the Apify dataset. *)
Definition Item : Type := list (string * string).

(** What [urljoin] comes to: the joined URL, or the [ValueError] that
    [urlsplit] raises on a reference it cannot split (an unbalanced
    bracket in the host, as in [//[careers]). *)
Inductive Joined : Type :=
| JoinOk (url : string)
| ValueError (text : string).

(** The libraries and services the program calls.  [browser_close] is
    what [PositionExtractor.close] comes to at the end of a run: the
    handles it closes were opened, or not, inside [browser_goto].
    [today] is [datetime.now().strftime("%Y-%m-%d")]; [write_json] and
    [write_logs] are opening the named file and dumping JSON into it. *)
Record World : Type := {
  urlparse : string -> Outcome ParseResult;
  urljoin : string -> string -> Joined;
  requests_head : string -> Outcome Response;
  requests_get : string -> Outcome Response;
  anthropic_new : string -> Outcome unit;
  messages_create : string -> Outcome Message;
  actor_call : string -> Z -> Outcome (list Item);
  browser_goto : string -> Outcome Page;
  browser_close : Outcome unit;
  today : string;
  write_json : string -> Outcome unit;
  write_logs : string -> Outcome unit
}.

(** The call [urljoin(base, url)]. *)
Definition call_urljoin (w : World) (base url : string) : Outcome string :=
  match urljoin w base url with
  | JoinOk joined => Ok joined
  | ValueError text => Raise (Exception "ValueError" text)
  end.

(* ================================================================== *)
(** ** The object store and the monad *)
(* ================================================================== *)

(** The mutable fields of the pipeline's components.  The statistics
    object is one object shared by all of them, so it is one field. *)
Record Store : Type := {
  statistics : ExecutionStatistics;
  tier1_success_count : Z;      (* CareerPageFinder *)
  tier2_success_count : Z;
  tier3_success_count : Z;
  calls_this_month : Z;         (* ClaudeFallback *)
  client : bool;                (* ClaudeFallback._client is not None *)
  api_calls_made : Z;           (* LinkedInFetcher *)
  results : list JobSourceResult (* OutputManager *)
}.

Definition new_store : Store :=
  {| statistics := new_statistics;
     tier1_success_count := 0; tier2_success_count := 0;
     tier3_success_count := 0;
     calls_this_month := 0; client := false;
     api_calls_made := 0; results := [] |}.

Definition M (A : Type) : Type := Store -> Outcome A * Store * list Event.

Definition ret {A} (a : A) : M A := fun s => (Ok a, s, []).

Definition bind {A B} (m : M A) (f : A -> M B) : M B :=
  fun s =>
    match m s with
    | (Ok a, s1, t1) =>
        match f a s1 with (r, s2, t2) => (r, s2, (t1 ++ t2)%list) end
    | (Raise e, s1, t1) => (Raise e, s1, t1)
    end.

Notation "x <- m ;; k" := (bind m (fun x => k))
  (at level 61, m at next level, right associativity).
Notation "m ;;; k" := (bind m (fun _ => k))
  (at level 61, right associativity).

(** [try: m  except <class>: h]; [catches e] tells whether the handler's
    class covers the exception.  State changes made before the raise stay. *)
Definition try_except {A} (m : M A) (catches : exn -> bool) (h : exn -> M A)
  : M A :=
  fun s =>
    match m s with
    | (Raise e, s1, t1) =>
        if catches e
        then match h e s1 with (r, s2, t2) => (r, s2, (t1 ++ t2)%list) end
        else (Raise e, s1, t1)
    | ok => ok
    end.

Definition any_exception (e : exn) : bool := true.

Definition emit (e : Event) : M unit := fun s => (Ok tt, s, [e]).

(** The answer of an outside call, after recording the call. *)
Definition external {A} (e : Event) (o : Outcome A) : M A :=
  fun s => (o, s, [e]).

(** The answer of an outside call that leaves no event. *)
Definition lift {A} (o : Outcome A) : M A := fun s => (o, s, []).

Definition get_store : M Store := fun s => (Ok s, s, []).

Definition modify (f : Store -> Store) : M unit := fun s => (Ok tt, f s, []).

Definition result_of {A} (x : Outcome A * Store * list Event) : Outcome A :=
  fst (fst x).
Definition store_of {A} (x : Outcome A * Store * list Event) : Store :=
  snd (fst x).
Definition events_of {A} (x : Outcome A * Store * list Event) : list Event :=
  snd x.

(** A [for] loop whose body may [return]: [Some b] from the body leaves
    the loop (and the function) with [b], [None] goes on. *)
Fixpoint for_return {A B} (xs : list A) (body : A -> M (option B))
  : M (option B) :=
  match xs with
  | [] => ret None
  | x :: xs' =>
      r <- body x ;;
      match r with
      | Some b => ret (Some b)
      | None => for_return xs' body
      end
  end.

(** The same for a loop without effects. *)
Fixpoint for_first {A B} (xs : list A) (body : A -> option B) : option B :=
  match xs with
  | [] => None
  | x :: xs' =>
      match body x with
      | Some b => Some b
      | None => for_first xs' body
      end
  end.

(* ================================================================== *)
(** ** logger.py *)
(* ================================================================== *)

Definition logger_info (message : string) : M unit := emit (Log INFO message).

Definition logger_warning (message : string) : M unit :=
  emit (Log WARNING message).

(** [Logger.error]: an exception object is always true, so its class
    name and text are appended whenever one is passed. *)
Definition logger_error (message : string) (exception : option exn) : M unit :=
  emit (Log ERROR
          match exception with
          | Some e => message ++ " | " ++ exn_name e ++ ": " ++ exn_text e
          | None => message
          end)%string.

(** [Logger.save_logs]: making the directory, opening [log_file] and
    dumping the entries are one outside answer. *)
Definition logger_save_logs (w : World) (log_file : string) : M unit :=
  external (SaveLogs log_file) (write_logs w log_file).

(* ================================================================== *)
(** ** Store updates *)
(* ================================================================== *)

Definition set_statistics (f : ExecutionStatistics -> ExecutionStatistics)
  (s : Store) : Store :=
  {| statistics := f (statistics s);
     tier1_success_count := tier1_success_count s;
     tier2_success_count := tier2_success_count s;
     tier3_success_count := tier3_success_count s;
     calls_this_month := calls_this_month s;
     client := client s;
     api_calls_made := api_calls_made s;
     results := results s |}.

Definition add_tier_success_count (tier : Z) (s : Store) : Store :=
  {| statistics := statistics s;
     tier1_success_count :=
       if tier =? 1 then tier1_success_count s + 1 else tier1_success_count s;
     tier2_success_count :=
       if tier =? 2 then tier2_success_count s + 1 else tier2_success_count s;
     tier3_success_count :=
       if tier =? 3 then tier3_success_count s + 1 else tier3_success_count s;
     calls_this_month := calls_this_month s;
     client := client s;
     api_calls_made := api_calls_made s;
     results := results s |}.

Definition set_calls_this_month (n : Z) (s : Store) : Store :=
  {| statistics := statistics s;
     tier1_success_count := tier1_success_count s;
     tier2_success_count := tier2_success_count s;
     tier3_success_count := tier3_success_count s;
     calls_this_month := n;
     client := client s;
     api_calls_made := api_calls_made s;
     results := results s |}.

Definition set_client (b : bool) (s : Store) : Store :=
  {| statistics := statistics s;
     tier1_success_count := tier1_success_count s;
     tier2_success_count := tier2_success_count s;
     tier3_success_count := tier3_success_count s;
     calls_this_month := calls_this_month s;
     client := b;
     api_calls_made := api_calls_made s;
     results := results s |}.

Definition set_api_calls_made (n : Z) (s : Store) : Store :=
  {| statistics := statistics s;
     tier1_success_count := tier1_success_count s;
     tier2_success_count := tier2_success_count s;
     tier3_success_count := tier3_success_count s;
     calls_this_month := calls_this_month s;
     client := client s;
     api_calls_made := n;
     results := results s |}.

Definition append_result (r : JobSourceResult) (s : Store) : Store :=
  {| statistics := statistics s;
     tier1_success_count := tier1_success_count s;
     tier2_success_count := tier2_success_count s;
     tier3_success_count := tier3_success_count s;
     calls_this_month := calls_this_month s;
     client := client s;
     api_calls_made := api_calls_made s;
     results := (results s ++ [r])%list |}.

(** [self._statistics.increment_success(tier)] on the shared object. *)
Definition stats_increment_success (tier : Z) : M unit :=
  emit (IncSuccess tier) ;;;
  modify (set_statistics (fun st => increment_success st tier)).

(** [self.statistics.increment_failure()] on the shared object. *)
Definition stats_increment_failure : M unit :=
  emit IncFailure ;;;
  modify (set_statistics increment_failure).

(** [self._statistics.claude_api_calls += 1] *)
Definition stats_add_claude_api_call : M unit :=
  emit IncClaudeCalls ;;;
  modify (set_statistics add_claude_api_call).

(** [self._statistics.linkedin_api_calls += 1] *)
Definition stats_add_linkedin_api_call : M unit :=
  emit IncLinkedinCalls ;;;
  modify (set_statistics add_linkedin_api_call).

(* ================================================================== *)
(** ** url_validator.py *)
(* ================================================================== *)

Module URLValidator.
Section WithWorld.
Variable w : World.

(** [URLValidator.normalize]; [urlparse] may raise. *)
Definition normalize (url : string) : M string :=
  let url := PyStr.strip url in
  let url :=
    if negb (PyStr.startswith url "http://" || PyStr.startswith url "https://")
    then "https://" ++ url else url in
  fun s =>
    match urlparse w url with
    | Ok parsed =>
        (Ok (PyStr.rstrip_slash
               (scheme parsed ++ "://" ++ netloc parsed ++ path parsed)), s, [])
    | Raise e => (Raise e, s, [])
    end.

(** [URLValidator.make_absolute] *)
Definition make_absolute (base relative : string) : Outcome string :=
  call_urljoin w base relative.

(** [URLValidator._check_status]: the status of a HEAD request, [0] when
    the request fails with a [RequestException]. *)
Definition _check_status (url : string) : M Z :=
  try_except
    (response <- external (HttpHead url) (requests_head w url) ;;
     ret (status_code response))
    is_request_exception
    (fun _ => ret 0).

(** [URLValidator.is_valid] *)
Definition is_valid (url : string) : M bool :=
  try_except
    (parsed <- (fun s => (urlparse w url, s, [])) ;;
     if negb (PyStr.truthy (scheme parsed) && PyStr.truthy (netloc parsed))
     then ret false
     else
       status <- _check_status url ;;
       ret (status =? 200))
    any_exception
    (fun _ => ret false).

End WithWorld.
End URLValidator.

(* ================================================================== *)
(** ** claude_fallback.py *)
(* ================================================================== *)

Module ClaudeFallback.
Section WithWorld.
Variable w : World.
Variable config : Configuration.

(** Set once in [__init__] from the configuration. *)
Definition api_key : string := anthropic_api_key config.
Definition max_calls_per_month : Z := max_claude_calls config.

Definition check_monthly_limit (s : Store) : bool :=
  calls_this_month s <? max_calls_per_month.

Definition increment_call_counter : M unit :=
  modify (fun s => set_calls_this_month (calls_this_month s + 1) s) ;;;
  stats_add_claude_api_call.

Definition _build_prompt (company_url : string) : string :=
  "What is the careers/jobs page URL for the company at " ++ company_url
  ++ "? " ++ "Return ONLY the full URL, nothing else. "
  ++ "If you don't know, return 'UNKNOWN'.".

(** [_parse_claude_response]: an empty [content] is the IndexError case,
    a first block without [.text] the AttributeError case; both handlers
    return [None]. *)
Definition _parse_claude_response (response : Message) : option string :=
  match content response with
  | [] => None
  | OtherBlock :: _ => None
  | TextBlock t :: _ =>
      let text := PyStr.strip t in
      if String.eqb (PyStr.upper text) "UNKNOWN"
         || negb (PyStr.startswith text "http")
      then None
      else Some text
  end.

Definition find_career_page_ai (company_url : string) : M (option string) :=
  emit (Call "find_career_page_ai") ;;;
  s <- get_store ;;
  if negb (check_monthly_limit s) then
    logger_warning "Claude API monthly limit reached, skipping" ;;;
    ret None
  else if negb (PyStr.truthy api_key) then
    logger_warning "No Anthropic API key configured, skipping Claude fallback" ;;;
    ret None
  else
    logger_info ("Tier 3: Using Claude API for " ++ company_url) ;;;
    try_except
      (s <- get_store ;;
       (if negb (client s) then
          external (AnthropicClient api_key) (anthropic_new w api_key) ;;;
          modify (set_client true)
        else ret tt) ;;;
       prompt <- (emit (BuildPrompt company_url) ;;;
                  ret (_build_prompt company_url)) ;;
       response <- external (MessagesCreate prompt) (messages_create w prompt) ;;
       increment_call_counter ;;;
       ret (_parse_claude_response response))
      any_exception
      (fun e =>
         logger_error ("Claude API call failed for " ++ company_url) (Some e) ;;;
         ret None).

End WithWorld.
End ClaudeFallback.

(* ================================================================== *)
(** ** career_finder.py *)
(* ================================================================== *)

Module CareerPageFinder.
Section WithWorld.
Variable w : World.
Variable config : Configuration.
(** [self._claude_fallback] is not [None] *)
Variable claude_fallback : bool.

(** Copied in [__init__] from the configuration. *)
Definition common_paths : list string := career_paths config.
Definition keywords : list string := career_keywords config.

Definition make_absolute_url (base_url relative_url : string)
  : Outcome string :=
  call_urljoin w base_url relative_url.

(** [validate_url]: [all([parsed.scheme, parsed.netloc])], and [False]
    when parsing raises. *)
Definition validate_url (url : string) : bool :=
  match urlparse w url with
  | Ok parsed => PyStr.truthy (scheme parsed) && PyStr.truthy (netloc parsed)
  | Raise _ => false
  end.

Definition _matches_career_keyword (text url : string) : bool :=
  let combined := PyStr.lower (text ++ " " ++ url) in
  existsb (fun keyword => PyStr.contains keyword combined) keywords.

Definition _is_valid_career_page (url content : string) : bool :=
  let url_lower := PyStr.lower url in
  existsb (fun keyword => PyStr.contains keyword url_lower) keywords.

(** The body of the [for path in self.common_paths] loop: [Some u] is
    [return u], [None] is falling to the next path. *)
Definition probe_path (company_url path : string) : M (option string) :=
  let test_url := PyStr.rstrip_slash company_url ++ path in
  try_except
    (response <- external (HttpHead test_url) (requests_head w test_url) ;;
     if status_code response =? 200 then
       if _is_valid_career_page (response_url response) EmptyString
       then ret (Some (response_url response))
       else ret None
     else ret None)
    is_request_exception
    (fun _ => ret None).

Definition find_via_direct_paths (company_url : string) : M (option string) :=
  emit (Call "find_via_direct_paths") ;;;
  for_return common_paths (probe_path company_url).

(** The test both link scans apply to one anchor. *)
Definition link_matches (link : node) : bool :=
  let href := get_href link in
  let text := PyStr.lower (get_text_strip link) in
  _matches_career_keyword text href.

Definition check_footer_nav (soup : node) : option string :=
  for_first ["footer"; "nav"] (fun container_tag =>
    for_first (find_all container_tag soup) (fun container =>
      for_first (find_all_a_href container) (fun link =>
        if link_matches link then Some (get_href link) else None))).

(** The [for link in soup.find_all("a", href=True)] loop of
    [scrape_homepage]; [make_absolute_url] may raise. *)
Definition scan_all_links (company_url : string) (soup : node)
  : M (option string) :=
  for_return (find_all_a_href soup) (fun link =>
    if link_matches link then
      absolute_url <- lift (make_absolute_url company_url (get_href link)) ;;
      if validate_url absolute_url then ret (Some absolute_url) else ret None
    else ret None).

Definition scrape_homepage (company_url : string) : M (option string) :=
  emit (Call "scrape_homepage") ;;;
  try_except
    (response <- external (HttpGet company_url) (requests_get w company_url) ;;
     if negb (status_code response =? 200) then ret None
     else
       let soup := soup response in
       let footer_result := check_footer_nav soup in
       match PyStr.if_result footer_result with
       | Some footer_result =>
           absolute_url <- lift (make_absolute_url company_url footer_result) ;;
           ret (Some absolute_url)
       | None => scan_all_links company_url soup
       end)
    is_request_exception
    (fun e =>
       logger_error ("Homepage scrape failed for " ++ company_url) (Some e) ;;;
       ret None).

(** The last two lines of [find_career_page]. *)
Definition no_career_page (company_url : string) : M (option string) :=
  logger_warning ("No career page found for " ++ company_url) ;;;
  ret None.

(** [find_career_page]; [if result:] is [PyStr.if_result]: it holds for
    a string that is not empty. *)
Definition find_career_page (company_url : string) : M (option string) :=
  company_url <- URLValidator.normalize w company_url ;;
  logger_info ("Finding career page for " ++ company_url) ;;;
  result <- find_via_direct_paths company_url ;;
  match PyStr.if_result result with
  | Some result =>
      modify (add_tier_success_count 1) ;;;
      stats_increment_success 1 ;;;
      logger_info ("Tier 1 success: " ++ result) ;;;
      ret (Some result)
  | None =>
  result <- scrape_homepage company_url ;;
  match PyStr.if_result result with
  | Some result =>
      modify (add_tier_success_count 2) ;;;
      stats_increment_success 2 ;;;
      logger_info ("Tier 2 success: " ++ result) ;;;
      ret (Some result)
  | None =>
  if claude_fallback then
    result <- ClaudeFallback.find_career_page_ai w config company_url ;;
    match PyStr.if_result result with
    | Some result =>
        modify (add_tier_success_count 3) ;;;
        stats_increment_success 3 ;;;
        logger_info ("Tier 3 success: " ++ result) ;;;
        ret (Some result)
    | None => no_career_page company_url
    end
  else no_career_page company_url
  end
  end.

End WithWorld.
End CareerPageFinder.

(* ================================================================== *)
(** ** position_extractor.py *)
(* ================================================================== *)

Module PositionExtractor.

(** The double quote character, for the selectors below. *)
Definition dq : string := String (ascii_of_nat 34) EmptyString.

Definition JOB_SELECTORS : list string :=
  [ "a[href*=" ++ dq ++ "job" ++ dq ++ "]";
    "a[href*=" ++ dq ++ "position" ++ dq ++ "]";
    "a[href*=" ++ dq ++ "opening" ++ dq ++ "]";
    "a[href*=" ++ dq ++ "posting" ++ dq ++ "]";
    "a[href*=" ++ dq ++ "apply" ++ dq ++ "]";
    "a[href*=" ++ dq ++ "career" ++ dq ++ "]";
    ".job-listing a";
    ".job-card a";
    ".careers-list a";
    ".opening a";
    "[class*=" ++ dq ++ "job" ++ dq ++ "] a";
    "[class*=" ++ dq ++ "position" ++ dq ++ "] a";
    "[class*=" ++ dq ++ "career" ++ dq ++ "] a";
    "[data-job] a";
    "a[class*=" ++ dq ++ "job" ++ dq ++ "]" ].

Section WithWorld.
Variable w : World.
(** [self.job_selectors] *)
Variable job_selectors : list string.

Definition make_absolute_url (base_url job_url : string) : Outcome string :=
  call_urljoin w base_url job_url.

(** [_extract_job_url]: a missing attribute, an empty one, one of the
    three excluded prefixes, and a raising [get_attribute] all give
    [None]. *)
Definition _extract_job_url (element : ElementHandle) : option string :=
  match get_attribute_href element with
  | Ok (Some href) =>
      if PyStr.truthy href
         && negb (PyStr.startswith href "javascript:"
                  || PyStr.startswith href "mailto:"
                  || PyStr.startswith href "#")
      then Some href
      else None
  | Ok None => None
  | Raise _ => None
  end.

(** The [for element in elements] loop: [inl l] is [return l], [inr l]
    is the end of the loop with [found_urls = l]. *)
Fixpoint scan_elements (elements : list ElementHandle)
  (found_urls : list string) : list string + list string :=
  match elements with
  | [] => inr found_urls
  | element :: rest =>
      match PyStr.if_result (_extract_job_url element) with
      | Some url =>
          if negb (existsb (String.eqb url) found_urls) then
            let found_urls := (found_urls ++ [url])%list in
            if 1 <=? Z.of_nat (length found_urls) then inl found_urls
            else scan_elements rest found_urls
          else scan_elements rest found_urls
      | None => scan_elements rest found_urls
      end
  end.

(** The [for selector in self.job_selectors] loop. *)
Fixpoint scan_selectors (page : Page) (selectors : list string)
  (found_urls : list string) : M (list string) :=
  match selectors with
  | [] => ret found_urls
  | selector :: rest =>
      r <- try_except
             (elements <- external (QuerySelectorAll selector)
                            (query_selector_all page selector) ;;
              ret (scan_elements elements found_urls))
             any_exception
             (fun _ => ret (inr found_urls)) ;;
      match r with
      | inl found_urls => ret found_urls
      | inr found_urls => scan_selectors page rest found_urls
      end
  end.

Definition find_job_links (page : Page) : M (list string) :=
  scan_selectors page job_selectors [].

(** [navigate_to_page]: launching the browser, opening the context and
    the page, [goto] and the wait are one outside answer; any exception
    among them is logged and gives [None]. *)
Definition navigate_to_page (url : string) : M (option Page) :=
  try_except
    (page <- external (Goto url) (browser_goto w url) ;;
     ret (Some page))
    any_exception
    (fun e =>
       logger_error ("Navigation failed for " ++ url) (Some e) ;;;
       ret None).

Definition extract_first_position (career_page_url : string)
  : M (option string) :=
  logger_info ("Extracting position from " ++ career_page_url) ;;;
  try_except
    (page <- navigate_to_page career_page_url ;;
     match page with
     | None => ret None
     | Some page =>
         job_links <- find_job_links page ;;
         external PageClose (page_close page) ;;;
         match job_links with
         | first :: _ =>
             absolute_url <- lift (make_absolute_url career_page_url first) ;;
             logger_info ("Found position: " ++ absolute_url) ;;;
             ret (Some absolute_url)
         | [] =>
             logger_warning ("No job links found on " ++ career_page_url) ;;;
             ret None
         end
     end)
    any_exception
    (fun e =>
       logger_error ("Position extraction failed for " ++ career_page_url)
         (Some e) ;;;
       ret None).

(** [close]: the browser context, the browser and Playwright are closed
    and forgotten, each if it is set.  Which of them are set was decided
    inside [browser_goto]; closing them is one outside answer. *)
Definition close : M unit := external BrowserClose (browser_close w).

End WithWorld.
End PositionExtractor.

(* ================================================================== *)
(** ** linkedin_fetcher.py *)
(* ================================================================== *)

Module LinkedInFetcher.
Section WithWorld.
Variable w : World.

(** [self.max_items] *)
Definition max_items : Z := 50.

(** [a or b] on two strings *)
Definition str_or (a b : string) : string := if PyStr.truthy a then a else b.

(** [CompanyData.validate_url] *)
Definition company_validate_url (c : CompanyData) : bool :=
  match urlparse w (company_url c) with
  | Ok result => PyStr.truthy (scheme result) && PyStr.truthy (netloc result)
  | Raise _ => false
  end.

Definition validate_api_response (response : list Item) : bool :=
  0 <? Z.of_nat (length response).

Definition _make_api_request (linkedin_url : string) (maxItems : Z)
  : M (list Item) :=
  items <- external (ActorCall linkedin_url maxItems)
             (actor_call w linkedin_url maxItems) ;;
  modify (fun s => set_api_calls_made (api_calls_made s + 1) s) ;;;
  ret items.

(** Two digits of [n], for the cents of the estimated cost. *)
Definition two_digits (n : Z) : string :=
  PyStr.str_of_int (n / 10) ++ PyStr.str_of_int (n mod 10).

(** [_track_api_cost]: the cost is one cent an item, printed with two
    decimals. *)
Definition _track_api_cost (items_fetched : Z) : M unit :=
  logger_info ("Estimated API cost for " ++ PyStr.str_of_int items_fetched
               ++ " items: $" ++ PyStr.str_of_int (items_fetched / 100)
               ++ "." ++ two_digits (items_fetched mod 100)).

Definition fetch_job_listings (linkedin_url : string) (limit : Z)
  : M (list Item) :=
  logger_info ("Fetching up to " ++ PyStr.str_of_int limit
               ++ " listings from LinkedIn") ;;;
  try_except
    (raw <- _make_api_request linkedin_url (Z.min limit max_items) ;;
     if negb (validate_api_response raw) then
       logger_error "Invalid API response from LinkedIn fetcher" None ;;;
       ret []
     else
       _track_api_cost (Z.of_nat (length raw)) ;;;
       stats_add_linkedin_api_call ;;;
       ret raw)
    any_exception
    (fun e => logger_error "LinkedIn API failure" (Some e) ;;; ret []).

(** The body of the loop of [extract_company_data]: the company to
    append, or [None] after a warning. *)
Definition extract_one (item : Item) : M (option CompanyData) :=
  let company_name :=
    str_or (get_or_empty item "companyName") (get_or_empty item "company") in
  let company_url :=
    str_or (get_or_empty item "companyUrl") (get_or_empty item "companyLink") in
  let linkedin_job_url :=
    str_or (get_or_empty item "jobUrl") (get_or_empty item "link") in
  let job_title :=
    str_or (get_or_empty item "title") (get_or_empty item "jobTitle") in
  if negb (PyStr.truthy company_name) || negb (PyStr.truthy company_url) then
    logger_warning ("Skipping item with missing data: "
                    ++ match dict_get item "title" with
                       | Some t => t
                       | None => "unknown"
                       end) ;;;
    ret None
  else
    let build (company_url : string) : M (option CompanyData) :=
      let company :=
        {| company_name := company_name; company_url := company_url;
           linkedin_job_url := linkedin_job_url; job_title := job_title |} in
      if company_validate_url company then ret (Some company)
      else
        logger_warning ("Invalid URL for " ++ company_name ++ ": "
                        ++ company_url) ;;;
        ret None in
    if PyStr.contains "linkedin.com" company_url then
      let website :=
        str_or (get_or_empty item "companyWebsite")
               (get_or_empty item "website") in
      if PyStr.truthy website then build website
      else
        logger_warning ("No website URL for " ++ company_name
                        ++ ", only LinkedIn profile") ;;;
        ret None
    else build company_url.

Fixpoint extract_loop (raw_response : list Item) (companies : list CompanyData)
  : M (list CompanyData) :=
  match raw_response with
  | [] => ret companies
  | item :: rest =>
      c <- extract_one item ;;
      match c with
      | Some company => extract_loop rest (companies ++ [company])%list
      | None => extract_loop rest companies
      end
  end.

Definition extract_company_data (raw_response : list Item)
  : M (list CompanyData) :=
  companies <- extract_loop raw_response [] ;;
  logger_info ("Extracted " ++ PyStr.str_of_int (Z.of_nat (length companies))
               ++ " companies from API response") ;;;
  ret companies.

End WithWorld.
End LinkedInFetcher.

(* ================================================================== *)
(** ** output_manager.py *)
(* ================================================================== *)

Module OutputManager.
Section WithWorld.
Variable w : World.
Variable config : Configuration.

(** [self.output_dir] *)
Definition output_dir_of : string := output_dir config.

(** [self.filename_template.format(date=date_str)] *)
Definition filename_template (date_str : string) : string :=
  "job_sources_" ++ date_str ++ ".json".

Definition generate_filename : string := filename_template (today w).

(** [os.path.join(a, b)] (POSIX) *)
Definition path_join (a b : string) : string :=
  if PyStr.startswith b "/" then b
  else if negb (PyStr.truthy a) || PyStr.endswith a "/" then a ++ b
  else a ++ "/" ++ b.

(** [save_to_json]; what is written ([_format_output], with its clock
    reading) is the file system's business, the path and the log entry
    are the program's. *)
Definition save_to_json (filename : string) : M string :=
  let filename :=
    if negb (PyStr.truthy filename) then generate_filename else filename in
  let filepath := path_join output_dir_of filename in
  external (SaveJson filepath) (write_json w filepath) ;;;
  s <- get_store ;;
  logger_info ("Saved " ++ PyStr.str_of_int (Z.of_nat (length (results s)))
               ++ " results to " ++ filepath) ;;;
  ret filepath.

End WithWorld.
End OutputManager.

(* ================================================================== *)
(** ** pipeline.py *)
(* ================================================================== *)

Module JobSourcePipeline.

(** [Logger(log_file="output/pipeline.log")] in [_initialize_components] *)
Definition log_file : string := "output/pipeline.log".

(** [max(items, key=...)] started from its first item: a later item
    replaces the best one only when its key is strictly larger. *)
Fixpoint max_by_count (best : Z * Z) (rest : list (Z * Z)) : Z * Z :=
  match rest with
  | [] => best
  | x :: rest' =>
      if snd best <? snd x then max_by_count x rest'
      else max_by_count best rest'
  end.

Definition _determine_tier (s : Store) : Z :=
  let stats := statistics s in
  fst (max_by_count (1, tier1_success stats)
         [ (2, tier2_success stats); (3, tier3_success stats) ]).

Section WithWorld.
Variable w : World.
Variable config : Configuration.

(** [_validate_inputs]. The clamped value is bound to the method's own
    parameter name and the method returns a [bool] only. *)
Definition _validate_inputs (linkedin_url : string) (max_companies : Z)
  : M bool :=
  if negb (PyStr.truthy linkedin_url) then
    logger_error "LinkedIn URL is required" None ;;;
    ret false
  else if negb (PyStr.startswith linkedin_url "http") then
    logger_error ("Invalid LinkedIn URL: " ++ linkedin_url) None ;;;
    ret false
  else
    max_companies <-
      (if (max_companies <? 1) || (50 <? max_companies) then
         logger_warning ("max_companies " ++ PyStr.str_of_int max_companies
                         ++ " out of range, clamping to 1-50") ;;;
         ret (Z.max 1 (Z.min 50 max_companies))
       else ret max_companies) ;;
    if negb (config_validate config) then
      logger_error "Configuration validation failed (check APIFY_TOKEN)" None ;;;
      ret false
    else ret true.

Definition handle_error (error : exn) (company : CompanyData) : M unit :=
  stats_increment_failure ;;;
  logger_error ("Error processing " ++ company_name company ++ ": "
                ++ company_url company) (Some error).

(** [process_single_company]; the finder was built with the pipeline's
    fallback object, the extractor with [JOB_SELECTORS]. *)
Definition process_single_company (company : CompanyData)
  : M (option JobSourceResult) :=
  logger_info ("Processing: " ++ company_name company ++ " ("
               ++ company_url company ++ ")") ;;;
  try_except
    (career_url <- CareerPageFinder.find_career_page w config true
                     (company_url company) ;;
     match PyStr.if_result career_url with
     | None =>
         stats_increment_failure ;;;
         logger_warning ("No career page found for " ++ company_name company) ;;;
         ret None
     | Some career_url =>
         position_url <- PositionExtractor.extract_first_position w
                           PositionExtractor.JOB_SELECTORS career_url ;;
         match PyStr.if_result position_url with
         | None =>
             stats_increment_failure ;;;
             logger_warning ("No positions found for " ++ company_name company) ;;;
             ret None
         | Some position_url =>
             s <- get_store ;;
             let result :=
               {| result_company_name := company_name company;
                  career_page_url := career_url;
                  open_position_url := position_url;
                  source_tier := _determine_tier s |} in
             logger_info ("Success: " ++ company_name company) ;;;
             ret (Some result)
         end
     end)
    any_exception
    (fun e => handle_error e company ;;; ret None).

(** The [for i, company in enumerate(companies, 1)] loop of [run]. *)
Fixpoint process_companies (companies : list CompanyData) : M unit :=
  match companies with
  | [] => ret tt
  | company :: rest =>
      result <- process_single_company company ;;
      match result with
      | Some r => modify (append_result r)
      | None => ret tt
      end ;;;
      process_companies rest
  end.

(** [run].  The two clock readings, the processing time computed from
    them and what is printed to the console (the progress line of the
    loop, the summary) are left out; they touch no counter and no
    result. *)
Definition run (linkedin_url : string) (max_companies : Z) : M unit :=
  ok <- _validate_inputs linkedin_url max_companies ;;
  if negb ok then ret tt else
  logger_info "Starting pipeline" ;;;
  raw_listings <- LinkedInFetcher.fetch_job_listings w linkedin_url
                    max_companies ;;
  match raw_listings with
  | [] =>
      logger_error "No listings fetched from LinkedIn, aborting" None ;;;
      ret tt
  | _ :: _ =>
  companies <- LinkedInFetcher.extract_company_data w raw_listings ;;
  match companies with
  | [] =>
      logger_error "No valid companies extracted, aborting" None ;;;
      ret tt
  | _ :: _ =>
  let companies := PyStr.slice_to companies max_companies in
  let total := Z.of_nat (length companies) in
  logger_info ("Processing " ++ PyStr.str_of_int total ++ " companies") ;;;
  process_companies companies ;;;
  filepath <- OutputManager.save_to_json w config EmptyString ;;
  logger_info "Pipeline completed" ;;;
  PositionExtractor.close w ;;;
  logger_save_logs w log_file
  end
  end.

End WithWorld.
End JobSourcePipeline.

(* ================================================================== *)
(** ** Reading a trace *)
(* ================================================================== *)

(** The tier methods entered, in order, as tier numbers. *)
Definition tier_of_call (e : Event) : option Z :=
  match e with
  | Call m =>
      if String.eqb m "find_via_direct_paths" then Some 1
      else if String.eqb m "scrape_homepage" then Some 2
      else if String.eqb m "find_career_page_ai" then Some 3
      else None
  | _ => None
  end.

Fixpoint tiers_attempted (t : list Event) : list Z :=
  match t with
  | [] => []
  | e :: t' =>
      match tier_of_call e with
      | Some n => n :: tiers_attempted t'
      | None => tiers_attempted t'
      end
  end.

(** The effect of one event on the statistics object. *)
Definition apply_event (st : ExecutionStatistics) (e : Event)
  : ExecutionStatistics :=
  match e with
  | IncSuccess tier => increment_success st tier
  | IncFailure => increment_failure st
  | IncClaudeCalls => add_claude_api_call st
  | IncLinkedinCalls => add_linkedin_api_call st
  | _ => st
  end.

(** The statistics object after a trace. *)
Definition replay (st : ExecutionStatistics) (t : list Event)
  : ExecutionStatistics :=
  fold_left apply_event t st.

(** Outgoing traffic to the model service. *)
Definition is_ai_traffic (e : Event) : bool :=
  match e with
  | AnthropicClient _ | BuildPrompt _ | MessagesCreate _ => true
  | _ => false
  end.

Definition is_error_log (e : Event) : bool :=
  match e with
  | Log ERROR _ => true
  | _ => false
  end.

(** A request sent to the model. *)
Definition is_model_request (e : Event) : bool :=
  match e with
  | MessagesCreate _ => true
  | _ => false
  end.

Definition is_claude_count (e : Event) : bool :=
  match e with
  | IncClaudeCalls => true
  | _ => false
  end.

Definition is_selector_query (e : Event) : bool :=
  match e with
  | QuerySelectorAll _ => true
  | _ => false
  end.

Definition is_head_request (e : Event) : bool :=
  match e with
  | HttpHead _ => true
  | _ => false
  end.

(* ================================================================== *)
(** ** A small world to run the program in *)
(* ================================================================== *)

Module Example.

(** [s] cut at the first occurrence of [sep]. *)
Fixpoint cut (sep s : string) : option (string * string) :=
  if String.prefix sep s
  then Some (EmptyString,
             substring (String.length sep)
               (String.length s - String.length sep) s)
  else match s with
       | EmptyString => None
       | String c r =>
           match cut sep r with
           | Some (a, b) => Some (String c a, b)
           | None => None
           end
       end.

(** [urlparse] on URLs without query, fragment or parameters. *)
Definition parse_url (url : string) : Outcome ParseResult :=
  match cut "://" url with
  | Some (sch, rest) =>
      match cut "/" rest with
      | Some (host, p) =>
          Ok {| scheme := sch; netloc := host; path := "/" ++ p |}
      | None => Ok {| scheme := sch; netloc := rest; path := EmptyString |}
      end
  | None =>
      Ok {| scheme := EmptyString; netloc := EmptyString; path := url |}
  end.

(** [urljoin] for a base with at most one path segment and a reference
    that is absolute, empty, an absolute path, or a relative path without
    dot segments. *)
Definition join_url (base ref : string) : string :=
  if String.prefix "http://" ref || String.prefix "https://" ref then ref
  else match ref with
       | EmptyString => base
       | _ =>
           match parse_url base with
           | Ok p =>
               if String.prefix "/" ref
               then scheme p ++ "://" ++ netloc p ++ ref
               else scheme p ++ "://" ++ netloc p ++ "/" ++ ref
           | Raise _ => ref
           end
       end.

Fixpoint table {A} (t : list (string * A)) (default : A) (k : string) : A :=
  match t with
  | [] => default
  | (k', v) :: t' => if String.eqb k' k then v else table t' default k
  end.

Definition anchor (href text : string) : node :=
  Tag "a" [("href", href)] [NavigableString text].

Definition document (body : list node) : node :=
  Tag "[document]" [] [Tag "html" [] [Tag "body" [] body]].

Definition empty_document : node := document [].

Definition response (status : Z) (url : string) (doc : node) : Response :=
  {| status_code := status; response_url := url; soup := doc |}.

(** Globex: the careers link sits in the footer of the homepage. *)
Definition globex_home : node :=
  document [ Tag "p" [] [NavigableString "Welcome to Globex"];
             Tag "footer" [] [anchor "/about" "About"; anchor "/careers" "Careers"] ].

(** Initech: no link on the homepage mentions a career keyword. *)
Definition plain_home : node :=
  document [ Tag "nav" [] [anchor "/products" "Products"] ].

(** A navigation bar before the footer, each with a matching link. *)
Definition nav_before_footer : node :=
  document [ Tag "nav" [] [anchor "/jobs" "Jobs"];
             Tag "footer" [] [anchor "/careers" "Careers"] ].

(** A matching link in the body before one inside a header element. *)
Definition link_before_header : node :=
  document [ anchor "/jobs-board" "Find jobs";
             Tag "header" [] [anchor "/careers" "Careers"] ].

(** A footer link whose text and href match only when glued together. *)
Definition glued_keyword : node :=
  document [ Tag "footer" [] [anchor "us/team" "Join"] ].

(** A footer link whose href has an opening bracket and no closing one
    where the host would be. *)
Definition bracket_href : node :=
  document [ Tag "footer" [] [anchor "//[careers" "Careers"] ].

(** A footer link with matching text and an empty href, then a link in
    the body. *)
Definition empty_href : node :=
  document [ Tag "footer" [] [anchor EmptyString "Careers"];
             anchor "/jobs" "Jobs" ].

Definition element (href : string) : ElementHandle :=
  {| get_attribute_href := Ok (Some href) |}.

Definition page (answers : list (string * list ElementHandle)) : Page :=
  {| query_selector_all := fun sel => Ok (table answers [] sel);
     page_close := Ok tt |}.

(** A page that offers one job link and whose [close] raises. *)
Definition closing_page : Page :=
  {| query_selector_all :=
       fun sel => Ok (table [ ("a[href*=" ++ PositionExtractor.dq ++ "job"
                               ++ PositionExtractor.dq ++ "]",
                               [ element "/jobs/7" ]) ] [] sel);
     page_close := Raise (Exception "Error" "Target page has been closed") |}.

Definition sel_href_job : string :=
  "a[href*=" ++ PositionExtractor.dq ++ "job" ++ PositionExtractor.dq ++ "]".

Definition sel_href_career : string :=
  "a[href*=" ++ PositionExtractor.dq ++ "career" ++ PositionExtractor.dq ++ "]".

Definition not_found (url : string) : Outcome Response :=
  Ok (response 404 url empty_document).

Definition found (url : string) (doc : node) : Outcome Response :=
  Ok (response 200 url doc).

(** Acme answers on /careers and on /jobs.  Hooli refuses the connection
    on /careers, sends /jobs back to its homepage and serves
    /about/careers under a capitalised address.  Status answers /careers
    with 204 (no content) and /jobs with 200.  Every other probe is a
    404. *)
Definition head (url : string) : Outcome Response :=
  table
    [ ("https://acme.com/careers",
        found "https://acme.com/careers" empty_document);
      ("https://acme.com/jobs", found "https://acme.com/jobs" empty_document);
      ("https://hooli.com/careers",
        Raise (RequestException "ConnectionError" "connection refused"));
      ("https://hooli.com/jobs", found "https://hooli.com/" empty_document);
      ("https://hooli.com/about/careers",
        found "https://hooli.com/about/Careers" empty_document);
      ("https://status.example/careers",
        Ok (response 204 "https://status.example/careers" empty_document));
      ("https://status.example/jobs",
        found "https://status.example/jobs" empty_document) ]
    (not_found url) url.

Definition get (url : string) : Outcome Response :=
  table
    [ ("https://globex.com", found "https://globex.com" globex_home);
      ("https://initech.com", found "https://initech.com" plain_home);
      ("https://umbrella.example", found "https://umbrella.example" plain_home);
      ("https://navfirst.example",
        found "https://navfirst.example" nav_before_footer);
      ("https://header.example",
        found "https://header.example" link_before_header);
      ("https://glued.example", found "https://glued.example" glued_keyword);
      ("https://emptyhref.example",
        found "https://emptyhref.example" empty_href);
      ("https://bracket.example",
        found "https://bracket.example" bracket_href) ]
    (not_found url) url.

(** The model knows Initech, cannot be reached for Umbrella, and says
    UNKNOWN otherwise. *)
Definition create (prompt : string) : Outcome Message :=
  table
    [ (ClaudeFallback._build_prompt "https://initech.com",
        Ok {| content := [TextBlock " https://initech.com/work-here "] |});
      (ClaudeFallback._build_prompt "https://umbrella.example",
        Raise (Exception "APIConnectionError" "Connection error.")) ]
    (Ok {| content := [TextBlock "UNKNOWN"] |}) prompt.

Definition goto (url : string) : Outcome Page :=
  table
    [ ("https://acme.com/careers",
        Ok (page [ (sel_href_job,
                    [ element "javascript:void(0)"; element "#top";
                      element "/jobs/42"; element "/jobs/43" ]);
                   (sel_href_career, [ element "/careers/senior" ]) ]));
      ("https://globex.com/careers",
        Ok (page [ (sel_href_career, [ element "/careers/123" ]) ]));
      ("https://initech.com/work-here", Ok (page []));
      ("https://closing.example/careers", Ok closing_page);
      ("https://bracket.example/careers",
        Ok (page [ (sel_href_job, [ element "//[jobs/1" ]) ])) ]
    (Raise (Exception "TimeoutError" "Timeout 15000ms exceeded.")) url.

Definition listing (name url title : string) : Item :=
  [ ("companyName", name); ("companyUrl", url); ("title", title) ].

Definition listings : list Item :=
  [ listing "Acme" "https://acme.com" "Engineer";
    listing "Globex" "https://globex.com" "Analyst";
    listing "Initech" "https://initech.com" "Tester" ].

(** The actor returns at most [maxItems] listings. *)
Definition actor (url : string) (maxItems : Z) : Outcome (list Item) :=
  Ok (firstn (Z.to_nat maxItems) listings).

Definition world : World :=
  {| urlparse := parse_url;
     urljoin := fun base ref =>
                  if String.prefix "//[" ref
                  then ValueError "Invalid IPv6 URL"
                  else JoinOk (join_url base ref);
     requests_head := head;
     requests_get := get;
     anthropic_new := fun _ => Ok tt;
     messages_create := create;
     actor_call := actor;
     browser_goto := goto;
     browser_close := Ok tt;
     today := "2025-01-15";
     write_json := fun _ => Ok tt;
     write_logs := fun _ => Ok tt |}.

Definition config : Configuration := new_configuration "apify-token" "sk-key".

(** The same with two career paths only. *)
Definition two_paths : Configuration :=
  {| apify_token := "apify-token";
     anthropic_api_key := "sk-key";
     career_paths := [ "/careers"; "/jobs" ];
     career_keywords := default_career_keywords;
     max_claude_calls := 50;
     request_timeout := 5;
     browser_timeout := 15000;
     output_dir := "./output" |}.

(** Two paths and one keyword, written with a capital letter. *)
Definition capital_keyword : Configuration :=
  {| apify_token := "apify-token";
     anthropic_api_key := "sk-key";
     career_paths := [ "/careers"; "/jobs" ];
     career_keywords := [ "Careers" ];
     max_claude_calls := 50;
     request_timeout := 5;
     browser_timeout := 15000;
     output_dir := "./output" |}.

Definition search_url : string := "https://www.linkedin.com/jobs/search".

Definition acme : CompanyData :=
  {| company_name := "Acme"; company_url := "https://acme.com";
     linkedin_job_url := EmptyString; job_title := "Engineer" |}.

Definition globex : CompanyData :=
  {| company_name := "Globex"; company_url := "https://globex.com";
     linkedin_job_url := EmptyString; job_title := "Analyst" |}.

Definition initech : CompanyData :=
  {| company_name := "Initech"; company_url := "https://initech.com";
     linkedin_job_url := EmptyString; job_title := "Tester" |}.

End Example.

(** The tier written in a success event is one of the three tiers. *)
Definition tier_ok (e : Event) : Prop :=
  match e with
  | IncSuccess n => n = 1 \/ n = 2 \/ n = 3
  | _ => True
  end.

(** An event that is not a counter update. *)
Definition silent (e : Event) : Prop :=
  (forall st, apply_event st e = st) /\ tier_ok e.

(** A computation is [traced] when every change it makes to the shared
    statistics is announced by an event, and announces tiers 1..3 only. *)
Definition traced {A} (m : M A) : Prop :=
  forall s,
    statistics (store_of (m s)) = replay (statistics s) (events_of (m s))
    /\ Forall tier_ok (events_of (m s)).

(** A computation that hands back a value from every store: no
    exception leaves it. *)
Definition never_raises {A} (m : M A) : Prop :=
  forall s, exists a, result_of (m s) = Ok a.


Module Claimed.

(** The homepage scan as claim C7 words it. *)

Definition is_container (n : node) : bool :=
  is_tag "header" n || is_tag "footer" n || is_tag "nav" n.

(** The anchors with an href that lie inside a header, footer or nav
    element, in document order; [inside] tells whether [n] itself does. *)
Fixpoint scoped_anchors (inside : bool) (n : node) : list node :=
  ((if inside && is_tag "a" n && has_href n then [n] else [])
   ++ match n with
      | Tag _ _ cs =>
          (fix walk (l : list node) : list node :=
             match l with
             | [] => []
             | c :: l' =>
                 scoped_anchors (inside || is_container n) c ++ walk l'
             end) cs
      | NavigableString _ => []
      end)%list.

(** Link text or href contains a keyword, letter case ignored. *)
Definition link_matches (keywords : list string) (link : node) : bool :=
  existsb
    (fun k =>
       PyStr.contains (PyStr.lower k) (PyStr.lower (get_text_strip link))
       || PyStr.contains (PyStr.lower k) (PyStr.lower (get_href link)))
    keywords.

(** A reference resolved against a base, when it can be. *)
Definition resolved (w : World) (base ref : string) : option string :=
  match urljoin w base ref with
  | JoinOk url => Some url
  | ValueError _ => None
  end.

Definition scrape_homepage (w : World) (config : Configuration)
  (company_url : string) (doc : node) : option string :=
  let keywords := career_keywords config in
  let resolve link := resolved w company_url (get_href link) in
  match find (link_matches keywords) (scoped_anchors false doc) with
  | Some link => resolve link
  | None =>
      match find (fun link =>
                    link_matches keywords link
                    && match resolve link with
                       | Some url => CareerPageFinder.validate_url w url
                       | None => false
                       end)
              (find_all_a_href doc) with
      | Some link => resolve link
      | None => None
      end
  end.

(** The direct-path tier as claim C6 words it: a probe hits when it comes
    back with a success status code and its final URL contains a
    configured keyword, letter case ignored; a failed request goes on to
    the next path. *)

Definition is_success (status : Z) : bool :=
  (200 <=? status) && (status <? 300).

Definition contains_keyword (keywords : list string) (url : string) : bool :=
  existsb (fun k => PyStr.contains (PyStr.lower k) (PyStr.lower url)) keywords.

Definition find_via_direct_paths (w : World) (config : Configuration)
  (company_url : string) : option string :=
  for_first (career_paths config) (fun path =>
    match requests_head w (PyStr.rstrip_slash company_url ++ path) with
    | Ok response =>
        if is_success (status_code response)
           && contains_keyword (career_keywords config) (response_url response)
        then Some (response_url response)
        else None
    | Raise _ => None
    end).

(** Position extraction on a rendered page as claim C8 words it: the
    first valid href of the first selector that yields any, resolved
    against the career page URL. *)

Definition valid_href (href : string) : bool :=
  PyStr.truthy href
  && negb (PyStr.startswith href "javascript:"
           || PyStr.startswith href "mailto:"
           || PyStr.startswith href "#").

Definition first_valid_href (page : Page) (selector : string)
  : option string :=
  match query_selector_all page selector with
  | Ok elements =>
      for_first elements (fun element =>
        match get_attribute_href element with
        | Ok (Some href) => if valid_href href then Some href else None
        | _ => None
        end)
  | Raise _ => None
  end.

Definition extract_first_position (w : World) (selectors : list string)
  (career_page_url : string) (page : Page) : option string :=
  match for_first selectors (first_valid_href page) with
  | Some href => resolved w career_page_url href
  | None => None
  end.

End Claimed.






(** The element carries href [h], and [h] may be returned: it is not
    empty and starts with none of the three excluded prefixes. *)
Definition offers (element : ElementHandle) (h : string) : Prop :=
  get_attribute_href element = Ok (Some h)
  /\ h <> EmptyString
  /\ PyStr.startswith h "javascript:" = false
  /\ PyStr.startswith h "mailto:" = false
  /\ PyStr.startswith h "#" = false.




(** The first href the elements offer, as the inner loop finds it. *)
Definition first_offer (elements : list ElementHandle) : option string :=
  for_first elements PositionExtractor._extract_job_url.

(** What one selector comes to. *)
Definition selector_answer (page : Page) (selector : string) : option string :=
  match query_selector_all page selector with
  | Ok elements => first_offer elements
  | Raise _ => None
  end.

(** The first href any selector gives, and the selectors asked for it. *)
Definition first_answer (page : Page) (selectors : list string)
  : option string :=
  for_first selectors (selector_answer page).

Fixpoint queried (page : Page) (selectors : list string) : list string :=
  match selectors with
  | [] => []
  | selector :: rest =>
      selector :: match selector_answer page selector with
                  | Some _ => []
                  | None => queried page rest
                  end
  end.

(** The keyword test of a probe: some configured keyword, as it is
    written in the configuration, occurs in the lowercased URL. *)
Definition has_career_keyword (keywords : list string) (url : string) : Prop :=
  exists k, In k keywords /\ PyStr.contains k (PyStr.lower url) = true.

(** The probe of [test_url] is a hit with final address [found]: the
    status is 200, no other. *)
Definition probe_hits (w : World) (keywords : list string)
  (test_url found : string) : Prop :=
  exists response,
    requests_head w test_url = Ok response
    /\ status_code response = 200
    /\ response_url response = found
    /\ has_career_keyword keywords found.

(** The probe of [test_url] lets the loop go on: a network error, a
    status other than 200, or a final address without a keyword. *)
Definition probe_misses (w : World) (keywords : list string)
  (test_url : string) : Prop :=
  (exists name text,
      requests_head w test_url = Raise (RequestException name text))
  \/ (exists response,
        requests_head w test_url = Ok response
        /\ (status_code response <> 200
            \/ ~ has_career_keyword keywords (response_url response))).

(** What one turn of the loop of [find_via_direct_paths] comes to. *)
Definition probe_answer (w : World) (config : Configuration)
  (test_url : string) : Outcome (option string) :=
  match requests_head w test_url with
  | Ok response =>
      if (status_code response =? 200)
         && CareerPageFinder._is_valid_career_page config
              (response_url response) EmptyString
      then Ok (Some (response_url response))
      else Ok None
  | Raise e => if is_request_exception e then Ok None else Raise e
  end.

(** A computation that neither reads nor writes the store and enters no
    tier method. *)
Definition detached {A} (m : M A) : Prop :=
  exists r t, (forall s, m s = (r, s, t)) /\ tiers_attempted t = [].

(** A computation that enters no tier method. *)
Definition no_tier_call {A} (m : M A) : Prop :=
  forall s, tiers_attempted (events_of (m s)) = [].

(** What a call came to, and the tiers it entered. *)
Definition outcome_and_tiers {A} (x : Outcome A * Store * list Event)
  : Outcome A * list Z :=
  (result_of x, tiers_attempted (events_of x)).

(** The events that move [total_processed]. *)
Definition is_outcome_event (e : Event) : bool :=
  match e with
  | IncSuccess _ | IncFailure => true
  | _ => false
  end.

Definition is_success_event (e : Event) : bool :=
  match e with
  | IncSuccess _ => true
  | _ => false
  end.

Definition is_failure_event (e : Event) : bool :=
  match e with
  | IncFailure => true
  | _ => false
  end.

Definition count_events (f : Event -> bool) (t : list Event) : Z :=
  Z.of_nat (length (filter f t)).

(** A call of the Apify actor. *)
Definition is_actor_call (e : Event) : bool :=
  match e with
  | ActorCall _ _ => true
  | _ => false
  end.

(** A computation that assembles no result and settles no company. *)
Definition idle {A} (m : M A) : Prop :=
  forall s,
    results (store_of (m s)) = results s
    /\ filter is_outcome_event (events_of (m s)) = [].

(** The two equations between the counters. *)
Definition processed_is_sum (st : ExecutionStatistics) : Prop :=
  total_processed st = successful st + failed st.

Definition successful_is_tier_sum (st : ExecutionStatistics) : Prop :=
  successful st = tier1_success st + tier2_success st + tier3_success st.

(** The last character of a string. *)
Fixpoint last_char (s : string) : option ascii :=
  match s with
  | EmptyString => None
  | String c EmptyString => Some c
  | String _ r => last_char r
  end.


Definition is_log (e : Event) : bool :=
  match e with
  | Log _ _ => true
  | _ => false
  end.


(** [l1] is [l2] with some elements left out, the order kept. *)
Inductive subseq {A : Type} : list A -> list A -> Prop :=
| subseq_nil : subseq [] []
| subseq_skip (x : A) (l1 l2 : list A) : subseq l1 l2 -> subseq l1 (x :: l2)
| subseq_take (x : A) (l1 l2 : list A) :
    subseq l1 l2 -> subseq (x :: l1) (x :: l2).



(** What [find_career_page] leaves behind, started in [s]: the results
    untouched, and one success recorded exactly when a URL comes back. *)
Definition success_marked (s : Store)
  (x : Outcome (option string) * Store * list Event) : Prop :=
  results (store_of x) = results s
  /\ ((exists u tier,
         result_of x = Ok (Some u)
         /\ u <> EmptyString
         /\ (tier = 1 \/ tier = 2 \/ tier = 3)
         /\ filter is_outcome_event (events_of x) = [IncSuccess tier])
      \/ ((result_of x = Ok None \/ exists e, result_of x = Raise e)
          /\ filter is_outcome_event (events_of x) = [])).

(** A result assembled for a company. *)
Definition assembled_from (c : CompanyData) (r : JobSourceResult) : Prop :=
  result_company_name r = company_name c
  /\ PyStr.truthy (career_page_url r) = true
  /\ PyStr.truthy (open_position_url r) = true
  /\ (source_tier r = 1 \/ source_tier r = 2 \/ source_tier r = 3).

(** How [process_single_company] leaves one company, started in [s]: a
    result, one success and no failure, or no result and one failure (after
    at most one success: a career page found without a position). *)
Definition settled (c : CompanyData) (s : Store)
  (x : Outcome (option JobSourceResult) * Store * list Event) : Prop :=
  results (store_of x) = results s
  /\ ((exists r,
         result_of x = Ok (Some r)
         /\ assembled_from c r
         /\ filter is_failure_event (events_of x) = []
         /\ count_events is_success_event (events_of x) = 1)
      \/ (result_of x = Ok None
          /\ filter is_failure_event (events_of x) = [IncFailure]
          /\ count_events is_success_event (events_of x) <= 1)).

(** How [process_companies] leaves a list of companies, started in [s]. *)
Definition gathered (companies : list CompanyData) (s : Store)
  (x : Outcome unit * Store * list Event) : Prop :=
  exists kept added,
    results (store_of x) = (results s ++ added)%list
    /\ subseq kept companies
    /\ Forall2 assembled_from kept added
    /\ Z.of_nat (length added) + count_events is_failure_event (events_of x)
       = Z.of_nat (length companies)
    /\ Z.of_nat (length added)
       <= count_events is_success_event (events_of x)
       <= Z.of_nat (length companies).

(** A computation whose every run relates the store it starts in to the
    store and the trace it ends with. *)
Definition follows (R : Store -> Store -> list Event -> Prop) {A} (m : M A)
  : Prop :=
  forall s, R s (store_of (m s)) (events_of (m s)).

(** Events that touch no counter and reach neither the model service nor
    the listing service. *)
Definition is_quiet (e : Event) : bool :=
  match e with
  | Log _ _ | Call _ | HttpHead _ | HttpGet _ | Goto _ | QuerySelectorAll _
  | PageClose | SaveJson _ | BrowserClose | SaveLogs _ => true
  | _ => false
  end.

(** The store after [tierN_success_count += 1] and
    [increment_success(tier)]. *)
Definition success_recorded (tier : Z) (s : Store) : Store :=
  set_statistics (fun st => increment_success st tier)
    (add_tier_success_count tier s).

(** A request sent to the model that the model answers. *)
Definition is_answered_request (w : World) (e : Event) : bool :=
  match e with
  | MessagesCreate prompt =>
      match messages_create w prompt with
      | Ok _ => true
      | Raise _ => false
      end
  | _ => false
  end.

(** The monthly budget between two stores of a run with trace [t]: both
    call counters have moved by the number of requests in [t] that the
    model answered, the ceiling is not crossed, and nothing reaches the
    model service when the budget is used up or no key is configured. *)
Definition budget_kept (w : World) (config : Configuration) (s s' : Store)
  (t : list Event) : Prop :=
  calls_this_month s'
  = calls_this_month s + count_events (is_answered_request w) t
  /\ claude_api_calls (statistics s')
     = claude_api_calls (statistics s)
       + count_events (is_answered_request w) t
  /\ (calls_this_month s <= max_claude_calls config ->
      calls_this_month s' <= max_claude_calls config)
  /\ (max_claude_calls config <= calls_this_month s
      \/ PyStr.truthy (anthropic_api_key config) = false ->
      filter is_ai_traffic t = []).

(** The counters the components keep beside the shared statistics. *)
Definition counters_agree (s s' : Store) (t : list Event) : Prop :=
  tier1_success_count s' - tier1_success_count s
  = tier1_success (statistics s') - tier1_success (statistics s)
  /\ tier2_success_count s' - tier2_success_count s
     = tier2_success (statistics s') - tier2_success (statistics s)
  /\ tier3_success_count s' - tier3_success_count s
     = tier3_success (statistics s') - tier3_success (statistics s)
  /\ 0 <= linkedin_api_calls (statistics s') - linkedin_api_calls (statistics s)
  /\ linkedin_api_calls (statistics s') - linkedin_api_calls (statistics s)
     <= api_calls_made s' - api_calls_made s
  /\ api_calls_made s' - api_calls_made s <= count_events is_actor_call t.


(* ================================================================== *)
(** ** Theorems *)
(* ================================================================== *)

Example lower_example : PyStr.lower "Join Our Team - Careers!" = "join our team - careers!".
Proof. reflexivity. Qed.

Example contains_example :
  PyStr.contains "careers" (PyStr.lower "Join Our Team - Careers!") = true.
Proof. reflexivity. Qed.

Example strip_example : PyStr.strip "  UNKNOWN
 " = "UNKNOWN".
Proof. reflexivity. Qed.

Example slice_examples :
  PyStr.slice_to [1; 2; 3] 2 = [1; 2] /\ PyStr.slice_to [1; 2; 3] 0 = []
  /\ PyStr.slice_to [1; 2; 3] (-1) = [1; 2] /\ PyStr.slice_to [1; 2; 3] 100 = [1; 2; 3]
  /\ PyStr.slice_to [1; 2; 3] (-5) = [].
Proof. repeat split. Qed.

(* ------------------------------------------------------------------ *)
(** *** The statistics object is what the trace says *)
(* ------------------------------------------------------------------ *)

Lemma replay_app st t1 t2 : replay st (t1 ++ t2) = replay (replay st t1) t2.
Proof. unfold replay. apply fold_left_app. Qed.

Lemma traced_ret {A} (a : A) : traced (ret a).
Proof. intros s. split; [reflexivity | constructor]. Qed.

Lemma traced_bind {A B} (m : M A) (f : A -> M B) :
  traced m -> (forall a, traced (f a)) -> traced (bind m f).
Proof.
  intros Hm Hf s. unfold bind, store_of, events_of.
  destruct (Hm s) as [Hs Ht]. unfold store_of, events_of in Hs, Ht.
  destruct (m s) as [[r s1] t1]. destruct r as [a | e]; simpl in *.
  - destruct (Hf a s1) as [Hs2 Ht2]. unfold store_of, events_of in Hs2, Ht2.
    destruct (f a s1) as [[r2 s2] t2]. simpl in *. split.
    + rewrite replay_app, <- Hs. exact Hs2.
    + apply Forall_app. split; assumption.
  - split; assumption.
Qed.

Lemma traced_try_except {A} (m : M A) catches (h : exn -> M A) :
  traced m -> (forall e, traced (h e)) -> traced (try_except m catches h).
Proof.
  intros Hm Hh s. unfold try_except, store_of, events_of.
  destruct (Hm s) as [Hs Ht]. unfold store_of, events_of in Hs, Ht.
  destruct (m s) as [[r s1] t1]. destruct r as [a | e]; simpl in *.
  - split; assumption.
  - destruct (catches e); simpl; [| split; assumption].
    destruct (Hh e s1) as [Hs2 Ht2]. unfold store_of, events_of in Hs2, Ht2.
    destruct (h e s1) as [[r2 s2] t2]. simpl in *. split.
    + rewrite replay_app, <- Hs. exact Hs2.
    + apply Forall_app. split; assumption.
Qed.

Lemma traced_external {A} (e : Event) (o : Outcome A) :
  silent e -> traced (external e o).
Proof.
  intros [He Hok] s. split; simpl.
  - symmetry. apply He.
  - repeat constructor. exact Hok.
Qed.

Lemma traced_emit (e : Event) : silent e -> traced (emit e).
Proof.
  intros [He Hok] s. split; simpl.
  - symmetry. apply He.
  - repeat constructor. exact Hok.
Qed.

Lemma traced_get_store : traced get_store.
Proof. intros s. split; [reflexivity | constructor]. Qed.

Lemma traced_lift {A} (o : Outcome A) : traced (lift o).
Proof. intros s. split; [reflexivity | constructor]. Qed.

Lemma traced_modify (f : Store -> Store) :
  (forall s, statistics (f s) = statistics s) -> traced (modify f).
Proof. intros Hf s. split; [apply Hf | constructor]. Qed.

Lemma traced_logger_info msg : traced (logger_info msg).
Proof. apply traced_emit. split; [reflexivity | exact I]. Qed.

Lemma traced_logger_warning msg : traced (logger_warning msg).
Proof. apply traced_emit. split; [reflexivity | exact I]. Qed.

Lemma traced_logger_error msg e : traced (logger_error msg e).
Proof. apply traced_emit. split; [reflexivity | exact I]. Qed.

Lemma traced_stats_increment_success tier :
  tier = 1 \/ tier = 2 \/ tier = 3 -> traced (stats_increment_success tier).
Proof.
  intros Hn s. split; simpl.
  - reflexivity.
  - constructor; [exact Hn | constructor].
Qed.

Lemma traced_stats_increment_failure : traced stats_increment_failure.
Proof. intros s. split; simpl; [reflexivity | repeat constructor]. Qed.

Lemma traced_stats_add_claude_api_call : traced stats_add_claude_api_call.
Proof. intros s. split; simpl; [reflexivity | repeat constructor]. Qed.

Lemma traced_stats_add_linkedin_api_call : traced stats_add_linkedin_api_call.
Proof. intros s. split; simpl; [reflexivity | repeat constructor]. Qed.

Lemma traced_for_return {A B} (xs : list A) (body : A -> M (option B)) :
  (forall x, traced (body x)) -> traced (for_return xs body).
Proof.
  intros Hb. induction xs as [| x xs IH]; simpl.
  - apply traced_ret.
  - apply traced_bind; [apply Hb |].
    intros [b |]; [apply traced_ret | exact IH].
Qed.

Create HintDb traced.

#[local] Hint Resolve traced_ret traced_get_store traced_logger_info
  traced_logger_warning traced_logger_error traced_stats_increment_failure
  traced_stats_add_claude_api_call traced_stats_add_linkedin_api_call
  : traced.

(** One step of a proof that a method is [traced]: split the outermost
    combinator, or the case analysis in front. *)
Ltac traced_step :=
  match goal with
  | |- traced (bind _ _) => apply traced_bind; [| intros ?]
  | |- traced (try_except _ _ _) => apply traced_try_except; [| intros ?]
  | |- traced (for_return _ _) => apply traced_for_return; intros ?
  | |- traced (external _ _) =>
      apply traced_external; split; [reflexivity | exact I]
  | |- traced (emit _) => apply traced_emit; split; [reflexivity | exact I]
  | |- traced (lift _) => apply traced_lift
  | |- traced (modify _) => apply traced_modify; intros ?; reflexivity
  | |- traced (stats_increment_success _) =>
      apply traced_stats_increment_success; lia
  | |- traced (if ?b then _ else _) => destruct b
  | |- traced (match ?x with _ => _ end) => destruct x
  | |- traced _ => solve [auto with traced]
  end.

Ltac traced_auto := repeat traced_step.

Lemma traced_normalize w url : traced (URLValidator.normalize w url).
Proof.
  intros s. unfold URLValidator.normalize.
  destruct (urlparse w _); split; simpl; try reflexivity; constructor.
Qed.

Lemma traced_increment_call_counter : traced ClaudeFallback.increment_call_counter.
Proof. unfold ClaudeFallback.increment_call_counter. traced_auto. Qed.

Lemma traced_find_career_page_ai w config url :
  traced (ClaudeFallback.find_career_page_ai w config url).
Proof.
  unfold ClaudeFallback.find_career_page_ai.
  pose proof traced_increment_call_counter.
  traced_auto; assumption.
Qed.

Lemma traced_find_via_direct_paths w config url :
  traced (CareerPageFinder.find_via_direct_paths w config url).
Proof.
  unfold CareerPageFinder.find_via_direct_paths, CareerPageFinder.probe_path.
  traced_auto.
Qed.

Lemma traced_scrape_homepage w config url :
  traced (CareerPageFinder.scrape_homepage w config url).
Proof.
  unfold CareerPageFinder.scrape_homepage, CareerPageFinder.scan_all_links.
  traced_auto.
Qed.

Lemma traced_find_career_page w config fb url :
  traced (CareerPageFinder.find_career_page w config fb url).
Proof.
  unfold CareerPageFinder.find_career_page, CareerPageFinder.no_career_page.
  pose proof (traced_normalize w url).
  pose proof (traced_find_via_direct_paths w config).
  pose proof (traced_scrape_homepage w config).
  pose proof (traced_find_career_page_ai w config).
  traced_auto; auto.
Qed.

Lemma traced_scan_selectors page selectors found :
  traced (PositionExtractor.scan_selectors page selectors found).
Proof.
  revert found. induction selectors as [| sel rest IH]; intros found; simpl.
  - apply traced_ret.
  - traced_auto; apply IH.
Qed.

Lemma traced_extract_first_position w selectors url :
  traced (PositionExtractor.extract_first_position w selectors url).
Proof.
  unfold PositionExtractor.extract_first_position,
    PositionExtractor.navigate_to_page, PositionExtractor.find_job_links.
  pose proof traced_scan_selectors.
  traced_auto; auto.
Qed.

Lemma traced_process_single_company w config company :
  traced (JobSourcePipeline.process_single_company w config company).
Proof.
  unfold JobSourcePipeline.process_single_company,
    JobSourcePipeline.handle_error.
  pose proof (traced_find_career_page w config true).
  pose proof (traced_extract_first_position w PositionExtractor.JOB_SELECTORS).
  traced_auto; auto.
Qed.

Lemma traced_process_companies w config companies :
  traced (JobSourcePipeline.process_companies w config companies).
Proof.
  induction companies as [| c rest IH]; simpl.
  - apply traced_ret.
  - pose proof (traced_process_single_company w config c).
    traced_auto; auto.
Qed.

Lemma traced_fetch_job_listings w url limit :
  traced (LinkedInFetcher.fetch_job_listings w url limit).
Proof.
  unfold LinkedInFetcher.fetch_job_listings, LinkedInFetcher._make_api_request,
    LinkedInFetcher._track_api_cost.
  traced_auto.
Qed.

Lemma traced_extract_loop w raw companies :
  traced (LinkedInFetcher.extract_loop w raw companies).
Proof.
  revert companies. induction raw as [| item rest IH]; intros companies; simpl.
  - apply traced_ret.
  - unfold LinkedInFetcher.extract_one. traced_auto; apply IH.
Qed.

Lemma traced_save_to_json w config filename :
  traced (OutputManager.save_to_json w config filename).
Proof. unfold OutputManager.save_to_json. cbv zeta. traced_auto. Qed.

Lemma traced_run w config url max_companies :
  traced (JobSourcePipeline.run w config url max_companies).
Proof.
  unfold JobSourcePipeline.run, JobSourcePipeline._validate_inputs,
    LinkedInFetcher.extract_company_data, PositionExtractor.close,
    logger_save_logs.
  pose proof (traced_fetch_job_listings w).
  pose proof (traced_extract_loop w).
  pose proof (traced_process_companies w config).
  pose proof (traced_save_to_json w config).
  traced_auto; auto.
Qed.

(* ------------------------------------------------------------------ *)
(** *** The two counter equations *)
(* ------------------------------------------------------------------ *)

Lemma apply_event_processed_is_sum st e :
  processed_is_sum st -> processed_is_sum (apply_event st e).
Proof.
  unfold processed_is_sum. destruct e; simpl; intros H; try assumption; lia.
Qed.

Lemma apply_event_successful_is_tier_sum st e :
  tier_ok e -> successful_is_tier_sum st ->
  successful_is_tier_sum (apply_event st e).
Proof.
  unfold successful_is_tier_sum. destruct e; simpl; intros Hok H;
    try assumption.
  destruct Hok as [-> | [-> | ->]]; simpl; lia.
Qed.

Lemma replay_processed_is_sum t : forall st,
  processed_is_sum st -> processed_is_sum (replay st t).
Proof.
  induction t as [| e t IH]; intros st H; simpl; [exact H |].
  apply IH. apply apply_event_processed_is_sum. exact H.
Qed.

Lemma replay_successful_is_tier_sum t : forall st,
  Forall tier_ok t -> successful_is_tier_sum st ->
  successful_is_tier_sum (replay st t).
Proof.
  induction t as [| e t IH]; intros st Hok H; simpl; [exact H |].
  inversion Hok; subst.
  apply IH; [assumption |]. apply apply_event_successful_is_tier_sum; assumption.
Qed.

Lemma Forall_firstn {A} (P : A -> Prop) n (l : list A) :
  Forall P l -> Forall P (firstn n l).
Proof.
  revert l. induction n as [| n IH]; intros l H; simpl; [constructor |].
  destruct l as [| x l]; [constructor |].
  inversion H; subst. constructor; auto.
Qed.
Lemma never_raises_ret {A} (a : A) : never_raises (ret a).
Proof. intros s. exists a. reflexivity. Qed.

Lemma never_raises_bind {A B} (m : M A) (f : A -> M B) :
  never_raises m -> (forall a, never_raises (f a)) -> never_raises (bind m f).
Proof.
  intros Hm Hf s. destruct (Hm s) as [a Ha]. unfold bind, result_of in *.
  destruct (m s) as [[r s1] t1]. simpl in Ha. subst r.
  destruct (Hf a s1) as [b Hb]. unfold result_of in Hb.
  destruct (f a s1) as [[r2 s2] t2]. simpl in *. exists b. exact Hb.
Qed.

Lemma never_raises_try_any {A} (m : M A) (h : exn -> M A) :
  (forall e, never_raises (h e)) -> never_raises (try_except m any_exception h).
Proof.
  intros Hh s. unfold try_except, result_of.
  destruct (m s) as [[[a | e] s1] t1]; simpl.
  - exists a. reflexivity.
  - destruct (Hh e s1) as [b Hb]. unfold result_of in Hb.
    destruct (h e s1) as [[r2 s2] t2]. simpl in *. exists b. exact Hb.
Qed.

Lemma never_raises_emit e : never_raises (emit e).
Proof. intros s. exists tt. reflexivity. Qed.

Lemma never_raises_modify f : never_raises (modify f).
Proof. intros s. exists tt. reflexivity. Qed.

Lemma never_raises_process_single_company w config company :
  never_raises (JobSourcePipeline.process_single_company w config company).
Proof.
  unfold JobSourcePipeline.process_single_company.
  apply never_raises_bind; [apply never_raises_emit | intros _].
  apply never_raises_try_any. intros e.
  unfold JobSourcePipeline.handle_error.
  repeat (apply never_raises_bind; [| intros ?]);
    first [apply never_raises_emit | apply never_raises_modify | apply never_raises_ret].
Qed.

Lemma never_raises_process_companies w config companies :
  never_raises (JobSourcePipeline.process_companies w config companies).
Proof.
  induction companies as [| c rest IH]; simpl.
  - apply never_raises_ret.
  - apply never_raises_bind; [apply never_raises_process_single_company |].
    intros r. apply never_raises_bind; [| intros _; exact IH].
    destruct r; [apply never_raises_modify | apply never_raises_ret].
Qed.

Lemma store_of_bind_never_raises {A B} (m : M A) (f : A -> M B) s :
  never_raises m ->
  exists a, result_of (m s) = Ok a /\
            store_of (bind m f s) = store_of (f a (store_of (m s))).
Proof.
  intros Hm. destruct (Hm s) as [a Ha]. exists a. split; [exact Ha |].
  unfold bind, result_of, store_of in *.
  destruct (m s) as [[r s1] t1]. simpl in *. subst r.
  destruct (f a s1) as [[r2 s2] t2]. reflexivity.
Qed.


Lemma bind_assoc {A B C} (m : M A) (f : A -> M B) (g : B -> M C) s :
  bind (bind m f) g s = bind m (fun x => bind (f x) g) s.
Proof.
  unfold bind. destruct (m s) as [[[a | e] s1] t1]; [| reflexivity].
  destruct (f a s1) as [[[b | e] s2] t2]; [| reflexivity].
  destruct (g b s2) as [[r s3] t3]. rewrite app_assoc. reflexivity.
Qed.

Lemma bind_ret_l {A B} (a : A) (f : A -> M B) s : bind (ret a) f s = f a s.
Proof. unfold bind, ret. destruct (f a s) as [[r s'] t]. reflexivity. Qed.

Lemma bind_ext {A B} (m : M A) (f g : A -> M B) s :
  (forall a s', f a s' = g a s') -> bind m f s = bind m g s.
Proof.
  intros H. unfold bind. destruct (m s) as [[[a | e] s1] t1]; [| reflexivity].
  rewrite H. reflexivity.
Qed.

Lemma process_companies_app_run w config before after s :
  JobSourcePipeline.process_companies w config (before ++ after) s
  = bind (JobSourcePipeline.process_companies w config before)
      (fun _ => JobSourcePipeline.process_companies w config after) s.
Proof.
  revert s. induction before as [| c rest IH]; intros s.
  - simpl. rewrite bind_ret_l. reflexivity.
  - simpl. rewrite bind_assoc. apply bind_ext. intros r s1.
    rewrite bind_assoc. apply bind_ext. intros _ s2. apply IH.
Qed.

Lemma process_companies_app w config before after s :
  store_of (JobSourcePipeline.process_companies w config (before ++ after) s)
  = store_of (JobSourcePipeline.process_companies w config after
                (store_of (JobSourcePipeline.process_companies w config before s))).
Proof.
  rewrite process_companies_app_run.
  destruct (store_of_bind_never_raises
              (JobSourcePipeline.process_companies w config before)
              (fun _ => JobSourcePipeline.process_companies w config after) s
              (never_raises_process_companies w config before)) as [a [_ H]].
  exact H.
Qed.

Lemma count_events_cons f e t :
  count_events f (e :: t) = (if f e then 1 else 0) + count_events f t.
Proof.
  unfold count_events. simpl. destruct (f e); simpl length; lia.
Qed.

Lemma replay_counts t : forall st,
  total_processed (replay st t)
    = total_processed st + count_events is_outcome_event t
  /\ successful (replay st t) = successful st + count_events is_success_event t
  /\ failed (replay st t) = failed st + count_events is_failure_event t.
Proof.
  induction t as [| e t IH]; intros st.
  - unfold count_events. simpl. lia.
  - simpl replay. rewrite !count_events_cons.
    destruct (IH (apply_event st e)) as [H1 [H2 H3]].
    unfold replay in *. simpl fold_left. rewrite H1, H2, H3.
    destruct e; cbn -[Z.add count_events]; lia.
Qed.

(** C2. After the loop of [run] has advanced past any number of companies,
    [total_processed = successful + failed]: the store reached after the
    companies [before] satisfies the equation and is the store the loop
    continues from; the three counters have moved by exactly the number of
    [increment_success] and [increment_failure] calls announced in the
    trace; [increment_success] adds one to [successful] and to
    [total_processed], [increment_failure] adds one to [failed] and to
    [total_processed]. *)
Theorem C2_total_processed_is_successful_plus_failed :
  forall w config s before after,
    processed_is_sum (statistics s) ->
    let loop := JobSourcePipeline.process_companies w config in
    let mid := store_of (loop before s) in
    let t := events_of (loop before s) in
    processed_is_sum (statistics mid)
    /\ store_of (loop (before ++ after)%list s) = store_of (loop after mid)
    /\ total_processed (statistics mid)
       = total_processed (statistics s) + count_events is_outcome_event t
    /\ successful (statistics mid)
       = successful (statistics s) + count_events is_success_event t
    /\ failed (statistics mid)
       = failed (statistics s) + count_events is_failure_event t
    /\ (forall st tier,
          total_processed (increment_success st tier) = total_processed st + 1
          /\ successful (increment_success st tier) = successful st + 1
          /\ failed (increment_success st tier) = failed st)
    /\ (forall st,
          total_processed (increment_failure st) = total_processed st + 1
          /\ failed (increment_failure st) = failed st + 1
          /\ successful (increment_failure st) = successful st).
Proof.
  intros w config s before after Hs loop mid t.
  destruct (traced_process_companies w config before s) as [Hrep _].
  fold loop in Hrep. fold mid in Hrep. fold t in Hrep.
  destruct (replay_counts t (statistics s)) as [H1 [H2 H3]].
  rewrite <- Hrep in H1, H2, H3.
  repeat split; try assumption; try reflexivity.
  - rewrite Hrep. apply replay_processed_is_sum. exact Hs.
  - apply process_companies_app.
Qed.

Lemma C2_witness :
  processed_is_sum (statistics new_store)
  /\ (let loop := JobSourcePipeline.process_companies Example.world Example.config in
      let mid := store_of (loop [Example.acme; Example.initech] new_store) in
      processed_is_sum (statistics mid)
      /\ total_processed (statistics mid) = 3
      /\ successful (statistics mid) = 2
      /\ failed (statistics mid) = 1).
Proof.
  pose proof (C2_total_processed_is_successful_plus_failed
                Example.world Example.config new_store
                [Example.acme; Example.initech] [Example.globex]
                eq_refl) as H.
  split; [reflexivity |].
  cbv zeta in H. destruct H as [H _].
  split; [exact H |]. vm_compute. repeat split.
Defined.

(** C10. At every point of a run (after any number [n] of its events) the
    statistics satisfy [successful = tier1_success + tier2_success +
    tier3_success]; the statistics at the end are those the trace gives;
    every success is recorded with tier 1, 2 or 3; [increment_success] with
    such a tier adds one to [successful] and one to the sum of the tier
    counters; [increment_failure] touches none of them. *)
Theorem C10_successful_is_sum_of_tier_successes :
  forall w config linkedin_url max_companies s n,
    successful_is_tier_sum (statistics s) ->
    let out := JobSourcePipeline.run w config linkedin_url max_companies s in
    successful_is_tier_sum (replay (statistics s) (firstn n (events_of out)))
    /\ statistics (store_of out) = replay (statistics s) (events_of out)
    /\ (forall tier, In (IncSuccess tier) (events_of out) ->
          tier = 1 \/ tier = 2 \/ tier = 3)
    /\ (forall st tier, tier = 1 \/ tier = 2 \/ tier = 3 ->
          successful (increment_success st tier) = successful st + 1
          /\ tier1_success (increment_success st tier)
             + tier2_success (increment_success st tier)
             + tier3_success (increment_success st tier)
             = tier1_success st + tier2_success st + tier3_success st + 1)
    /\ (forall st,
          successful (increment_failure st) = successful st
          /\ tier1_success (increment_failure st) = tier1_success st
          /\ tier2_success (increment_failure st) = tier2_success st
          /\ tier3_success (increment_failure st) = tier3_success st).
Proof.
  intros w config url max_companies s n Hs out.
  destruct (traced_run w config url max_companies s) as [Hrep Hok].
  fold out in Hrep, Hok.
  split; [| split; [| split; [| split]]].
  - apply replay_successful_is_tier_sum; [| exact Hs].
    apply Forall_firstn. exact Hok.
  - exact Hrep.
  - intros tier Hin. rewrite Forall_forall in Hok. exact (Hok _ Hin).
  - intros st tier [-> | [-> | ->]]; simpl; split; lia.
  - intros st. repeat split.
Qed.

Lemma C10_witness :
  successful_is_tier_sum (statistics new_store)
  /\ (let out := JobSourcePipeline.run Example.world Example.config
                   Example.search_url 3 new_store in
      successful_is_tier_sum
        (replay (statistics new_store) (firstn 40 (events_of out)))
      /\ successful (statistics (store_of out)) = 3).
Proof.
  pose proof (C10_successful_is_sum_of_tier_successes
                Example.world Example.config Example.search_url 3 new_store
                40%nat eq_refl) as H.
  split; [reflexivity |].
  cbv zeta in H. destruct H as [H _].
  split; [exact H | reflexivity].
Defined.

(* ------------------------------------------------------------------ *)
(** *** The AI fallback: budget and call counter *)
(* ------------------------------------------------------------------ *)

(** C4. When [calls_this_month] equals the configured ceiling,
    [find_career_page_ai] returns [None] and leaves the store as it was;
    its whole trace is the entry and one warning: no client is built, no
    prompt, no request, no error is logged.  The statement holds whatever
    the API key is, the limit being checked first. *)
Theorem C4_exhausted_budget_sends_nothing :
  forall w config company_url s,
    calls_this_month s = max_claude_calls config ->
    let out := ClaudeFallback.find_career_page_ai w config company_url s in
    result_of out = Ok None
    /\ store_of out = s
    /\ events_of out
       = [ Call "find_career_page_ai";
           Log WARNING "Claude API monthly limit reached, skipping" ]
    /\ filter is_ai_traffic (events_of out) = []
    /\ filter is_error_log (events_of out) = [].
Proof.
  intros w config url s Hfull out.
  assert (Hlimit : ClaudeFallback.check_monthly_limit config s = false).
  { unfold ClaudeFallback.check_monthly_limit,
      ClaudeFallback.max_calls_per_month.
    rewrite Hfull. apply Z.ltb_irrefl. }
  assert (Hout : out = (Ok None, s,
                        [ Call "find_career_page_ai";
                          Log WARNING "Claude API monthly limit reached, skipping" ])).
  { subst out. unfold ClaudeFallback.find_career_page_ai.
    unfold bind, emit, get_store. rewrite Hlimit. reflexivity. }
  rewrite Hout. repeat split.
Qed.

Lemma C4_witness :
  calls_this_month (set_calls_this_month 50 new_store)
  = max_claude_calls Example.config
  /\ (let out := ClaudeFallback.find_career_page_ai Example.world Example.config
                   "https://initech.com" (set_calls_this_month 50 new_store) in
      result_of out = Ok None
      /\ filter is_ai_traffic (events_of out) = []).
Proof.
  pose proof (C4_exhausted_budget_sends_nothing Example.world Example.config
                "https://initech.com" (set_calls_this_month 50 new_store)
                eq_refl) as H.
  cbv zeta in H. destruct H as [H1 [_ [_ [H4 _]]]].
  split; [reflexivity | split; assumption].
Defined.

(** The credential check comes second: with budget left and no key the
    method stops on the key warning, again without traffic. *)
Lemma missing_key_is_the_second_check w config company_url s :
  ClaudeFallback.check_monthly_limit config s = true ->
  anthropic_api_key config = EmptyString ->
  ClaudeFallback.find_career_page_ai w config company_url s
  = (Ok None, s,
     [ Call "find_career_page_ai";
       Log WARNING "No Anthropic API key configured, skipping Claude fallback" ]).
Proof.
  intros Hlimit Hkey. unfold ClaudeFallback.find_career_page_ai.
  unfold bind, emit, get_store. rewrite Hlimit.
  unfold ClaudeFallback.api_key. rewrite Hkey. reflexivity.
Qed.

(** C5, as stated, fails: the model service cannot be reached for
    Umbrella; both checks pass and one request is sent, yet neither
    counter moves. *)
Lemma C5_counterexample :
  let s := new_store in
  let out := ClaudeFallback.find_career_page_ai Example.world Example.config
               "https://umbrella.example" s in
  ClaudeFallback.check_monthly_limit Example.config s = true
  /\ PyStr.truthy (ClaudeFallback.api_key Example.config) = true
  /\ count_events is_model_request (events_of out) = 1
  /\ calls_this_month (store_of out) = calls_this_month s
  /\ claude_api_calls (statistics (store_of out))
     = claude_api_calls (statistics s)
  /\ calls_this_month (store_of out) <> calls_this_month s + 1.
Proof. vm_compute. repeat split; discriminate. Qed.

(** What a call of [find_career_page_ai] that passes both checks does,
    by the answer of the model service. *)
Lemma find_career_page_ai_run w config company_url s :
  ClaudeFallback.check_monthly_limit config s = true ->
  PyStr.truthy (anthropic_api_key config) = true ->
  (client s = false -> anthropic_new w (anthropic_api_key config) = Ok tt) ->
  let prompt := ClaudeFallback._build_prompt company_url in
  let opening :=
    ([ Call "find_career_page_ai";
       Log INFO ("Tier 3: Using Claude API for " ++ company_url) ]
     ++ (if client s then [] else [AnthropicClient (anthropic_api_key config)])
     ++ [ BuildPrompt company_url; MessagesCreate prompt ])%list in
  ClaudeFallback.find_career_page_ai w config company_url s
  = match messages_create w prompt with
    | Ok response =>
        (Ok (ClaudeFallback._parse_claude_response response),
         set_statistics add_claude_api_call
           (set_calls_this_month (calls_this_month s + 1) (set_client true s)),
         (opening ++ [IncClaudeCalls])%list)
    | Raise e =>
        (Ok None, set_client true s,
         (opening
          ++ [ Log ERROR (("Claude API call failed for " ++ company_url)
                          ++ " | " ++ exn_name e ++ ": " ++ exn_text e) ])%list)
    end.
Proof.
  intros Hlimit Hkey Hclient prompt opening. subst prompt opening.
  unfold ClaudeFallback.find_career_page_ai, ClaudeFallback.api_key,
    ClaudeFallback.increment_call_counter, stats_add_claude_api_call,
    try_except, bind, emit, get_store, logger_info, logger_error, external,
    modify, ret.
  rewrite Hlimit, Hkey. cbn [negb].
  destruct s as [st c1 c2 c3 calls cl api res]. cbn [client] in *.
  destruct cl; cbn [negb];
    [| rewrite (Hclient eq_refl)];
    destruct (messages_create w (ClaudeFallback._build_prompt company_url))
      as [response | e];
    reflexivity.
Qed.

(** C5, amended. When both checks pass and the client is there (or can
    be built), exactly one request is sent.  If the service answers, the
    two counters each go up by one, once, whatever the answer parses to;
    if the call raises, both counters stay and the result is [None]. *)
Theorem C5_call_counter_counts_answered_requests :
  forall w config company_url s,
    ClaudeFallback.check_monthly_limit config s = true ->
    PyStr.truthy (anthropic_api_key config) = true ->
    (client s = false -> anthropic_new w (anthropic_api_key config) = Ok tt) ->
    let out := ClaudeFallback.find_career_page_ai w config company_url s in
    count_events is_model_request (events_of out) = 1
    /\ match messages_create w (ClaudeFallback._build_prompt company_url) with
       | Ok response =>
           calls_this_month (store_of out) = calls_this_month s + 1
           /\ claude_api_calls (statistics (store_of out))
              = claude_api_calls (statistics s) + 1
           /\ count_events is_claude_count (events_of out) = 1
           /\ result_of out = Ok (ClaudeFallback._parse_claude_response response)
       | Raise e =>
           calls_this_month (store_of out) = calls_this_month s
           /\ claude_api_calls (statistics (store_of out))
              = claude_api_calls (statistics s)
           /\ count_events is_claude_count (events_of out) = 0
           /\ result_of out = Ok None
       end.
Proof.
  intros w config url s Hlimit Hkey Hclient out. subst out.
  rewrite (find_career_page_ai_run w config url s Hlimit Hkey Hclient).
  destruct (messages_create w (ClaudeFallback._build_prompt url))
    as [response | e];
    destruct (client s); repeat split.
Qed.

Lemma C5_witness :
  ClaudeFallback.check_monthly_limit Example.config new_store = true
  /\ PyStr.truthy (anthropic_api_key Example.config) = true
  /\ anthropic_new Example.world (anthropic_api_key Example.config) = Ok tt
  /\ (let out := ClaudeFallback.find_career_page_ai Example.world Example.config
                   "https://initech.com" new_store in
      calls_this_month (store_of out) = calls_this_month new_store + 1
      /\ claude_api_calls (statistics (store_of out))
         = claude_api_calls (statistics new_store) + 1
      /\ result_of out = Ok (Some "https://initech.com/work-here")).
Proof.
  pose proof (C5_call_counter_counts_answered_requests Example.world
                Example.config "https://initech.com" new_store
                eq_refl eq_refl (fun _ => eq_refl)) as H.
  cbv zeta in H. destruct H as [_ H].
  change (messages_create Example.world
            (ClaudeFallback._build_prompt "https://initech.com"))
    with (@Ok Message {| content := [TextBlock " https://initech.com/work-here "] |}) in H.
  destruct H as [H1 [H2 [_ H4]]].
  repeat split; try reflexivity; assumption.
Defined.

(* ------------------------------------------------------------------ *)
(** *** The order of the tiers *)
(* ------------------------------------------------------------------ *)

Lemma tiers_attempted_app t1 t2 :
  tiers_attempted (t1 ++ t2) = (tiers_attempted t1 ++ tiers_attempted t2)%list.
Proof.
  induction t1 as [| e t1 IH]; simpl; [reflexivity |].
  destruct (tier_of_call e); simpl; rewrite IH; reflexivity.
Qed.

Lemma detached_ret {A} (a : A) : detached (ret a).
Proof. exists (Ok a), []. split; reflexivity. Qed.

Lemma detached_bind {A B} (m : M A) (f : A -> M B) :
  detached m -> (forall a, detached (f a)) -> detached (bind m f).
Proof.
  intros [r [t [Hm Ht]]] Hf. destruct r as [a | e].
  - destruct (Hf a) as [r2 [t2 [Hfa Ht2]]].
    exists r2, (t ++ t2)%list. split.
    + intros s. unfold bind. rewrite Hm, Hfa. reflexivity.
    + rewrite tiers_attempted_app, Ht, Ht2. reflexivity.
  - exists (Raise e), t. split; [| exact Ht].
    intros s. unfold bind. rewrite Hm. reflexivity.
Qed.

Lemma detached_try_except {A} (m : M A) catches (h : exn -> M A) :
  detached m -> (forall e, detached (h e)) -> detached (try_except m catches h).
Proof.
  intros [r [t [Hm Ht]]] Hh. destruct r as [a | e].
  - exists (Ok a), t. split; [| exact Ht].
    intros s. unfold try_except. rewrite Hm. reflexivity.
  - destruct (catches e) eqn:Hc.
    + destruct (Hh e) as [r2 [t2 [Hhe Ht2]]].
      exists r2, (t ++ t2)%list. split.
      * intros s. unfold try_except. rewrite Hm, Hc, Hhe. reflexivity.
      * rewrite tiers_attempted_app, Ht, Ht2. reflexivity.
    + exists (Raise e), t. split; [| exact Ht].
      intros s. unfold try_except. rewrite Hm, Hc. reflexivity.
Qed.

Lemma detached_external {A} (e : Event) (o : Outcome A) :
  tier_of_call e = None -> detached (external e o).
Proof.
  intros He. exists o, [e]. split; [reflexivity |].
  simpl. rewrite He. reflexivity.
Qed.

Lemma detached_emit (e : Event) : tier_of_call e = None -> detached (emit e).
Proof.
  intros He. exists (Ok tt), [e]. split; [reflexivity |].
  simpl. rewrite He. reflexivity.
Qed.

Lemma detached_lift {A} (o : Outcome A) : detached (lift o).
Proof. exists o, []. split; reflexivity. Qed.

Lemma detached_for_return {A B} (xs : list A) (body : A -> M (option B)) :
  (forall x, detached (body x)) -> detached (for_return xs body).
Proof.
  intros Hb. induction xs as [| x xs IH]; simpl.
  - apply detached_ret.
  - apply detached_bind; [apply Hb |].
    intros [b |]; [apply detached_ret | exact IH].
Qed.

Ltac detached_step :=
  match goal with
  | |- detached (bind _ _) => apply detached_bind; [| intros ?]
  | |- detached (try_except _ _ _) => apply detached_try_except; [| intros ?]
  | |- detached (for_return _ _) => apply detached_for_return; intros ?
  | |- detached (external _ _) => apply detached_external; reflexivity
  | |- detached (emit _) => apply detached_emit; reflexivity
  | |- detached (lift _) => apply detached_lift
  | |- detached (logger_error _ _) => apply detached_emit; reflexivity
  | |- detached (ret _) => apply detached_ret
  | |- detached (if ?b then _ else _) => destruct b
  | |- detached (match ?x with _ => _ end) => destruct x
  end.

Lemma detached_probe_path w config url p :
  detached (CareerPageFinder.probe_path w config url p).
Proof. unfold CareerPageFinder.probe_path. repeat detached_step. Qed.

(** Tier 1 leaves the store alone and its trace opens with its own entry. *)
Lemma find_via_direct_paths_run w config url :
  exists r t,
    (forall s, CareerPageFinder.find_via_direct_paths w config url s
               = (r, s, Call "find_via_direct_paths" :: t))
    /\ tiers_attempted t = [].
Proof.
  destruct (detached_for_return (CareerPageFinder.common_paths config)
              (CareerPageFinder.probe_path w config url)
              (detached_probe_path w config url)) as [r [t [H Ht]]].
  exists r, t. split; [| exact Ht].
  intros s. unfold CareerPageFinder.find_via_direct_paths, bind, emit.
  rewrite H. reflexivity.
Qed.

Lemma scrape_homepage_run w config url :
  exists r t,
    (forall s, CareerPageFinder.scrape_homepage w config url s
               = (r, s, Call "scrape_homepage" :: t))
    /\ tiers_attempted t = [].
Proof.
  unfold CareerPageFinder.scrape_homepage.
  match goal with
  | |- context [try_except ?m ?c ?h] =>
      assert (H : detached (try_except m c h))
  end.
  { unfold CareerPageFinder.scan_all_links. repeat detached_step. }
  destruct H as [r [t [H Ht]]].
  exists r, t. split; [| exact Ht].
  intros s. unfold bind at 1, emit.
  rewrite H. reflexivity.
Qed.

Lemma no_tier_call_bind {A B} (m : M A) (f : A -> M B) :
  no_tier_call m -> (forall a, no_tier_call (f a)) -> no_tier_call (bind m f).
Proof.
  intros Hm Hf s. unfold bind, events_of. specialize (Hm s).
  unfold events_of in Hm. destruct (m s) as [[[a | e] s1] t1]; simpl in *.
  - specialize (Hf a s1). unfold events_of in Hf.
    destruct (f a s1) as [[r2 s2] t2]. simpl in *.
    rewrite tiers_attempted_app, Hm, Hf. reflexivity.
  - exact Hm.
Qed.

Lemma no_tier_call_try_except {A} (m : M A) catches (h : exn -> M A) :
  no_tier_call m -> (forall e, no_tier_call (h e)) ->
  no_tier_call (try_except m catches h).
Proof.
  intros Hm Hh s. unfold try_except, events_of. specialize (Hm s).
  unfold events_of in Hm. destruct (m s) as [[[a | e] s1] t1]; simpl in *.
  - exact Hm.
  - destruct (catches e); simpl; [| exact Hm].
    specialize (Hh e s1). unfold events_of in Hh.
    destruct (h e s1) as [[r2 s2] t2]. simpl in *.
    rewrite tiers_attempted_app, Hm, Hh. reflexivity.
Qed.

Lemma no_tier_call_detached {A} (m : M A) : detached m -> no_tier_call m.
Proof. intros [r [t [H Ht]]] s. rewrite H. exact Ht. Qed.

Lemma no_tier_call_get_store : no_tier_call get_store.
Proof. intros s. reflexivity. Qed.

Lemma no_tier_call_modify f : no_tier_call (modify f).
Proof. intros s. reflexivity. Qed.

Ltac no_tier_call_step :=
  match goal with
  | |- no_tier_call (bind _ _) => apply no_tier_call_bind; [| intros ?]
  | |- no_tier_call (try_except _ _ _) =>
      apply no_tier_call_try_except; [| intros ?]
  | |- no_tier_call get_store => apply no_tier_call_get_store
  | |- no_tier_call (modify _) => apply no_tier_call_modify
  | |- no_tier_call (if ?b then _ else _) => destruct b
  | |- no_tier_call _ =>
      apply no_tier_call_detached; solve [repeat detached_step]
  end.

Lemma never_raises_get_store : never_raises get_store.
Proof. intros s. exists s. reflexivity. Qed.

Ltac never_raises_step :=
  match goal with
  | |- never_raises (bind _ _) => apply never_raises_bind; [| intros ?]
  | |- never_raises (try_except _ any_exception _) =>
      apply never_raises_try_any; intros ?
  | |- never_raises (ret _) => apply never_raises_ret
  | |- never_raises (emit _) => apply never_raises_emit
  | |- never_raises (modify _) => apply never_raises_modify
  | |- never_raises get_store => apply never_raises_get_store
  | |- never_raises (if ?b then _ else _) => destruct b
  | |- never_raises (match ?x with _ => _ end) => destruct x
  end.

(** Tier 3 announces itself once and never raises. *)
Lemma find_career_page_ai_calls w config url s :
  tiers_attempted
    (events_of (ClaudeFallback.find_career_page_ai w config url s)) = [3]
  /\ exists r, result_of (ClaudeFallback.find_career_page_ai w config url s) = Ok r.
Proof.
  unfold ClaudeFallback.find_career_page_ai.
  set (rest := bind get_store _).
  assert (Hq : no_tier_call rest).
  { subst rest. unfold ClaudeFallback.increment_call_counter,
      stats_add_claude_api_call, logger_warning, logger_info.
    repeat no_tier_call_step. }
  assert (Hr : never_raises rest).
  { subst rest. unfold logger_warning, logger_info, logger_error.
    repeat never_raises_step. }
  specialize (Hq s). destruct (Hr s) as [r Hres].
  unfold bind, emit. unfold events_of, result_of in *.
  destruct (rest s) as [[r0 s1] t1]. simpl in *. subst r0.
  split; [rewrite Hq; reflexivity | exists r; reflexivity].
Qed.

Lemma normalize_run w url :
  exists o, forall s, URLValidator.normalize w url s = (o, s, []).
Proof.
  unfold URLValidator.normalize.
  destruct (urlparse w _) as [p | e]; eexists; intros s; reflexivity.
Qed.

(** What [find_career_page] returns and which tiers it enters, read off
    the answers of the three tiers. *)
Lemma find_career_page_summary w config claude_fallback company_url s :
  outcome_and_tiers
    (CareerPageFinder.find_career_page w config claude_fallback company_url s)
  = match result_of (URLValidator.normalize w company_url s) with
    | Raise e => (Raise e, [])
    | Ok url =>
    match result_of (CareerPageFinder.find_via_direct_paths w config url s) with
    | Raise e => (Raise e, [1])
    | Ok r1 =>
    match PyStr.if_result r1 with
    | Some found => (Ok (Some found), [1])
    | None =>
    match result_of (CareerPageFinder.scrape_homepage w config url s) with
    | Raise e => (Raise e, [1; 2])
    | Ok r2 =>
    match PyStr.if_result r2 with
    | Some found => (Ok (Some found), [1; 2])
    | None =>
        if claude_fallback then
          match result_of (ClaudeFallback.find_career_page_ai w config url s) with
          | Ok r3 => (Ok (PyStr.if_result r3), [1; 2; 3])
          | Raise e => (Raise e, [1; 2; 3])
          end
        else (Ok None, [1; 2])
    end end end end end.
Proof.
  destruct (normalize_run w company_url) as [o Hn].
  unfold CareerPageFinder.find_career_page.
  unfold bind at 1. rewrite !Hn. unfold result_of at 1. cbn [fst].
  destruct o as [url | e]; [| reflexivity].
  destruct (find_via_direct_paths_run w config url) as [o1 [t1 [H1 Ht1]]].
  destruct (scrape_homepage_run w config url) as [o2 [t2 [H2 Ht2]]].
  unfold bind at 1. unfold logger_info at 1. unfold emit at 1.
  unfold bind at 1. rewrite !H1. unfold result_of at 1. cbn [fst].
  destruct o1 as [r1 | e1].
  2: { unfold outcome_and_tiers. cbn. rewrite Ht1. reflexivity. }
  destruct (PyStr.if_result r1) as [found |].
  { unfold outcome_and_tiers. cbn. rewrite tiers_attempted_app, Ht1.
    reflexivity. }
  unfold bind at 1. rewrite !H2. unfold result_of at 1. cbn [fst].
  destruct o2 as [r2 | e2].
  2: { unfold outcome_and_tiers. cbn.
       rewrite tiers_attempted_app, Ht1. cbn. rewrite Ht2. reflexivity. }
  destruct (PyStr.if_result r2) as [found |].
  { unfold outcome_and_tiers. cbn.
    rewrite tiers_attempted_app, Ht1. cbn.
    rewrite tiers_attempted_app, Ht2. reflexivity. }
  destruct claude_fallback.
  - destruct (find_career_page_ai_calls w config url s) as [Ht3 [r3 Hr3]].
    unfold bind at 1. rewrite Hr3.
    unfold result_of, events_of in Ht3, Hr3.
    destruct (ClaudeFallback.find_career_page_ai w config url s)
      as [[o3 s3] t3]. cbn [fst snd] in Ht3, Hr3. subst o3.
    destruct (PyStr.if_result r3) as [found |];
      unfold outcome_and_tiers; cbn;
      rewrite tiers_attempted_app, Ht1; cbn;
      rewrite tiers_attempted_app, Ht2; cbn;
      rewrite tiers_attempted_app, Ht3; reflexivity.
  - unfold outcome_and_tiers. cbn.
    rewrite tiers_attempted_app, Ht1. cbn.
    rewrite tiers_attempted_app, Ht2. reflexivity.
Qed.

(** C1. [find_career_page] enters the tiers in the order 1, 2, 3 without
    gaps, and stops at the first one that returns a URL: when tier 1
    returns a URL, that URL is the result and tier 1 is the only tier
    entered; when tier 1 returns nothing and tier 2 returns a URL, that URL
    is the result and the AI tier is not entered; the AI tier is entered
    only after both returned nothing, and only if a fallback is there. *)
Theorem C1_tiers_in_order_first_success_stops :
  forall w config claude_fallback company_url s,
    let out := CareerPageFinder.find_career_page w config claude_fallback
                 company_url s in
    let tiers := tiers_attempted (events_of out) in
    (tiers = [] \/ tiers = [1] \/ tiers = [1; 2] \/ tiers = [1; 2; 3])
    /\ (forall url r1,
          result_of (URLValidator.normalize w company_url s) = Ok url ->
          result_of (CareerPageFinder.find_via_direct_paths w config url s)
          = Ok r1 ->
          match PyStr.if_result r1 with
          | Some found => result_of out = Ok (Some found) /\ tiers = [1]
          | None =>
              forall r2,
                result_of (CareerPageFinder.scrape_homepage w config url s)
                = Ok r2 ->
                match PyStr.if_result r2 with
                | Some found =>
                    result_of out = Ok (Some found) /\ tiers = [1; 2]
                | None =>
                    if claude_fallback then
                      tiers = [1; 2; 3]
                      /\ exists r3,
                          result_of (ClaudeFallback.find_career_page_ai w
                                       config url s) = Ok r3
                          /\ result_of out = Ok (PyStr.if_result r3)
                    else tiers = [1; 2] /\ result_of out = Ok None
                end
          end).
Proof.
  intros w config fb company_url s out tiers.
  pose proof (find_career_page_summary w config fb company_url s) as Hsum.
  fold out in Hsum. unfold outcome_and_tiers in Hsum. fold tiers in Hsum.
  split.
  - destruct (result_of (URLValidator.normalize w company_url s));
      [| injection Hsum as _ ->; auto].
    destruct (result_of (CareerPageFinder.find_via_direct_paths w config a s))
      as [r1 |]; [| injection Hsum as _ ->; auto].
    destruct (PyStr.if_result r1); [injection Hsum as _ ->; auto |].
    destruct (result_of (CareerPageFinder.scrape_homepage w config a s))
      as [r2 |]; [| injection Hsum as _ ->; auto].
    destruct (PyStr.if_result r2); [injection Hsum as _ ->; auto |].
    destruct fb; [| injection Hsum as _ ->; auto].
    destruct (result_of (ClaudeFallback.find_career_page_ai w config a s));
      injection Hsum as _ ->; auto.
  - intros url r1 Hn H1. rewrite Hn, H1 in Hsum.
    destruct (PyStr.if_result r1) as [found |].
    { injection Hsum as -> ->. split; reflexivity. }
    intros r2 H2. rewrite H2 in Hsum.
    destruct (PyStr.if_result r2) as [found |].
    { injection Hsum as -> ->. split; reflexivity. }
    destruct fb.
    + destruct (find_career_page_ai_calls w config url s) as [_ [r3 Hr3]].
      rewrite Hr3 in Hsum. injection Hsum as -> ->.
      split; [reflexivity |]. exists r3. split; [exact Hr3 | reflexivity].
    + injection Hsum as -> ->. split; reflexivity.
Qed.

Example tiers_attempted_examples :
  outcome_and_tiers
    (CareerPageFinder.find_career_page Example.world Example.config true
       "https://acme.com" new_store)
  = (Ok (Some "https://acme.com/careers"), [1])
  /\ outcome_and_tiers
       (CareerPageFinder.find_career_page Example.world Example.config true
          "https://globex.com" new_store)
     = (Ok (Some "https://globex.com/careers"), [1; 2])
  /\ outcome_and_tiers
       (CareerPageFinder.find_career_page Example.world Example.config true
          "https://initech.com" new_store)
     = (Ok (Some "https://initech.com/work-here"), [1; 2; 3])
  /\ outcome_and_tiers
       (CareerPageFinder.find_career_page Example.world Example.config false
          "https://initech.com" new_store)
     = (Ok None, [1; 2]).
Proof. vm_compute. repeat split. Qed.

(* ------------------------------------------------------------------ *)
(** *** Tier 1: the first path that answers with a career address *)
(* ------------------------------------------------------------------ *)

Lemma probe_path_run w config url p s :
  CareerPageFinder.probe_path w config url p s
  = (probe_answer w config (PyStr.rstrip_slash url ++ p), s,
     [HttpHead (PyStr.rstrip_slash url ++ p)]).
Proof.
  unfold CareerPageFinder.probe_path, probe_answer, try_except, bind, external.
  destruct (requests_head w (PyStr.rstrip_slash url ++ p)) as [response | e].
  - destruct (status_code response =? 200); simpl;
      [destruct (CareerPageFinder._is_valid_career_page config _ _) |];
      reflexivity.
  - destruct (is_request_exception e); reflexivity.
Qed.

Lemma is_valid_career_page_spec config url content :
  CareerPageFinder._is_valid_career_page config url content = true
  <-> has_career_keyword (career_keywords config) url.
Proof.
  unfold CareerPageFinder._is_valid_career_page,
    CareerPageFinder.keywords, has_career_keyword.
  rewrite existsb_exists. reflexivity.
Qed.

Lemma probe_answer_hit w config test_url found :
  probe_answer w config test_url = Ok (Some found)
  <-> probe_hits w (career_keywords config) test_url found.
Proof.
  unfold probe_answer, probe_hits. split.
  - destruct (requests_head w test_url) as [response | e].
    + destruct (status_code response =? 200) eqn:Hs; simpl;
        [| discriminate].
      destruct (CareerPageFinder._is_valid_career_page config _ _) eqn:Hv;
        [| discriminate].
      intros H. injection H as <-. exists response.
      repeat split; [apply Z.eqb_eq; exact Hs |].
      apply (is_valid_career_page_spec config _ EmptyString). exact Hv.
    + destruct (is_request_exception e); discriminate.
  - intros [response [Hr [Hs [Hu Hk]]]]. rewrite Hr.
    apply Z.eqb_eq in Hs. rewrite Hs. simpl.
    apply (is_valid_career_page_spec config _ EmptyString) in Hk.
    rewrite Hu in *. rewrite Hk. reflexivity.
Qed.

Lemma probe_answer_miss w config test_url :
  probe_answer w config test_url = Ok None
  <-> probe_misses w (career_keywords config) test_url.
Proof.
  unfold probe_answer, probe_misses. split.
  - destruct (requests_head w test_url) as [response | e].
    + intros H. right. exists response. split; [reflexivity |].
      destruct (status_code response =? 200) eqn:Hs; simpl in H.
      * destruct (CareerPageFinder._is_valid_career_page config _ _) eqn:Hv;
          [discriminate |].
        right. intros Hk.
        apply (is_valid_career_page_spec config _ EmptyString) in Hk.
        congruence.
      * left. apply Z.eqb_neq. exact Hs.
    + destruct e as [name text | name text]; simpl; [| discriminate].
      intros _. left. exists name, text. reflexivity.
  - intros [[name [text Hr]] | [response [Hr Hno]]]; rewrite Hr.
    + reflexivity.
    + destruct (status_code response =? 200) eqn:Hs; simpl; [| reflexivity].
      destruct (CareerPageFinder._is_valid_career_page config _ _) eqn:Hv;
        [| reflexivity].
      exfalso. destruct Hno as [Hno | Hno].
      * apply Z.eqb_eq in Hs. contradiction.
      * apply Hno.
        apply (is_valid_career_page_spec config _ EmptyString). exact Hv.
Qed.

(** The loop over the paths, one turn at a time. *)
Lemma direct_paths_loop_nil w config url s :
  for_return [] (CareerPageFinder.probe_path w config url) s = (Ok None, s, []).
Proof. reflexivity. Qed.

Lemma direct_paths_loop_cons w config url p rest s :
  for_return (p :: rest) (CareerPageFinder.probe_path w config url) s
  = match probe_answer w config (PyStr.rstrip_slash url ++ p) with
    | Ok (Some found) =>
        (Ok (Some found), s, [HttpHead (PyStr.rstrip_slash url ++ p)])
    | Ok None =>
        match for_return rest (CareerPageFinder.probe_path w config url) s with
        | (r, s', t) => (r, s', HttpHead (PyStr.rstrip_slash url ++ p) :: t)
        end
    | Raise e => (Raise e, s, [HttpHead (PyStr.rstrip_slash url ++ p)])
    end.
Proof.
  cbn [for_return]. unfold bind at 1. rewrite probe_path_run.
  destruct (probe_answer w config _) as [[found |] | e]; try reflexivity.
Qed.

Section DirectPaths.
Variable w : World.
Variable config : Configuration.
Variable url : string.
Let target (p : string) : string := PyStr.rstrip_slash url ++ p.
Let loop (paths : list string) : M (option string) :=
  for_return paths (CareerPageFinder.probe_path w config url).
Let hits := probe_hits w (career_keywords config).
Let misses := probe_misses w (career_keywords config).

Lemma direct_paths_loop_store paths s : store_of (loop paths s) = s.
Proof.
  induction paths as [| p rest IH]; [reflexivity |].
  unfold loop in *. rewrite direct_paths_loop_cons.
  destruct (probe_answer w config _) as [[found |] | e]; try reflexivity.
  destruct (for_return rest _ s) as [[r s'] t]. exact IH.
Qed.

Lemma direct_paths_loop_found paths s found :
  result_of (loop paths s) = Ok (Some found)
  <-> exists before p after,
        paths = (before ++ p :: after)%list
        /\ hits (target p) found
        /\ (forall q, In q before -> misses (target q)).
Proof.
  induction paths as [| p rest IH].
  - split; [discriminate |].
    intros [before [p [after [H _]]]]. destruct before; discriminate.
  - unfold loop in *. rewrite direct_paths_loop_cons.
    destruct (probe_answer w config (PyStr.rstrip_slash url ++ p))
      as [[u |] | e] eqn:Hp.
    + split.
      * intros H. injection H as <-. exists [], p, rest.
        split; [reflexivity |]. split; [| intros q []].
        apply (probe_answer_hit w config _ u). exact Hp.
      * intros [before [p' [after [Hsplit [Hhit Hmiss]]]]].
        destruct before as [| q before]; simpl in Hsplit;
          injection Hsplit as <- _.
        -- apply (probe_answer_hit w config _ found) in Hhit.
           unfold target in Hhit. rewrite Hp in Hhit.
           injection Hhit as ->. reflexivity.
        -- specialize (Hmiss p (or_introl eq_refl)).
           apply (probe_answer_miss w config _) in Hmiss.
           unfold target in Hmiss. congruence.
    + destruct (for_return rest _ s) as [[r s'] t]. unfold result_of in *.
      simpl in *. rewrite IH. split.
      * intros [before [p' [after [-> [Hhit Hmiss]]]]].
        exists (p :: before), p', after. split; [reflexivity |].
        split; [exact Hhit |]. intros q [<- | Hq]; [| auto].
        apply (probe_answer_miss w config _). exact Hp.
      * intros [before [p' [after [Hsplit [Hhit Hmiss]]]]].
        destruct before as [| q before]; simpl in Hsplit;
          injection Hsplit as <- ->.
        -- apply (probe_answer_hit w config _ found) in Hhit.
           unfold target in Hhit. congruence.
        -- exists before, p', after. split; [reflexivity |].
           split; [exact Hhit |]. intros q0 Hq0. apply Hmiss. right. exact Hq0.
    + split; [discriminate |].
      intros [before [p' [after [Hsplit [Hhit Hmiss]]]]].
      destruct before as [| q before]; simpl in Hsplit;
        injection Hsplit as <- _.
      * apply (probe_answer_hit w config _ found) in Hhit.
        unfold target in Hhit. congruence.
      * specialize (Hmiss p (or_introl eq_refl)).
        apply (probe_answer_miss w config _) in Hmiss.
        unfold target in Hmiss. congruence.
Qed.

Lemma direct_paths_loop_absent paths s :
  result_of (loop paths s) = Ok None
  <-> forall p, In p paths -> misses (target p).
Proof.
  induction paths as [| p rest IH].
  - split; [intros _ p [] | reflexivity].
  - unfold loop in *. rewrite direct_paths_loop_cons.
    destruct (probe_answer w config (PyStr.rstrip_slash url ++ p))
      as [[u |] | e] eqn:Hp.
    + split; [discriminate |]. intros H.
      specialize (H p (or_introl eq_refl)).
      apply (probe_answer_miss w config _) in H.
      unfold target in H. congruence.
    + destruct (for_return rest _ s) as [[r s'] t]. unfold result_of in *.
      simpl in *. rewrite IH. split.
      * intros H q [<- | Hq]; [| auto].
        apply (probe_answer_miss w config _). exact Hp.
      * intros H q Hq. apply H. right. exact Hq.
    + split; [discriminate |]. intros H.
      specialize (H p (or_introl eq_refl)).
      apply (probe_answer_miss w config _) in H.
      unfold target in H. congruence.
Qed.

Lemma direct_paths_loop_requests before p after s found :
  hits (target p) found ->
  (forall q, In q before -> misses (target q)) ->
  events_of (loop (before ++ p :: after) s)
  = map (fun q => HttpHead (target q)) (before ++ [p]).
Proof.
  intros Hhit Hmiss. induction before as [| q before IH].
  - simpl app. unfold loop. rewrite direct_paths_loop_cons.
    apply (probe_answer_hit w config _ found) in Hhit.
    unfold target in Hhit. rewrite Hhit. reflexivity.
  - simpl app. unfold loop in *. rewrite direct_paths_loop_cons.
    pose proof (Hmiss q (or_introl eq_refl)) as Hq.
    apply (probe_answer_miss w config _) in Hq.
    unfold target in Hq. rewrite Hq.
    assert (IH' := IH (fun q0 H0 => Hmiss q0 (or_intror H0))).
    destruct (for_return (before ++ p :: after) _ s) as [[r s'] t].
    unfold events_of in *. simpl in *. rewrite IH'. reflexivity.
Qed.

End DirectPaths.

Lemma find_via_direct_paths_loop w config url s :
  CareerPageFinder.find_via_direct_paths w config url s
  = match for_return (career_paths config)
            (CareerPageFinder.probe_path w config url) s with
    | (r, s', t) => (r, s', Call "find_via_direct_paths" :: t)
    end.
Proof.
  unfold CareerPageFinder.find_via_direct_paths, bind, emit,
    CareerPageFinder.common_paths.
  destruct (for_return _ _ s) as [[r s'] t]. destruct r; reflexivity.
Qed.

Lemma filter_head_requests (f : string -> string) (l : list string) :
  filter is_head_request (map (fun q => HttpHead (f q)) l)
  = map (fun q => HttpHead (f q)) l.
Proof. induction l as [| q l IH]; simpl; congruence. Qed.

(** C6, as stated, fails in two ways.  Status answers the probe of
    /careers with 204, a success status, and a final address that holds
    [careers]: the claim takes it, the code wants 200 and goes on to
    /jobs.  With the keyword configured as [Careers] the claim, which
    ignores letter case, takes Acme's /careers; the code looks for
    [Careers] as it is written in the lowercased address, where no
    capital letter is left, and finds nothing. *)
Lemma C6_counterexample :
  (Claimed.find_via_direct_paths Example.world Example.two_paths
     "https://status.example"
   = Some "https://status.example/careers"
   /\ result_of (CareerPageFinder.find_via_direct_paths Example.world
                   Example.two_paths "https://status.example" new_store)
      = Ok (Some "https://status.example/jobs"))
  /\ (Claimed.find_via_direct_paths Example.world Example.capital_keyword
        "https://acme.com"
      = Some "https://acme.com/careers"
      /\ result_of (CareerPageFinder.find_via_direct_paths Example.world
                      Example.capital_keyword "https://acme.com" new_store)
         = Ok None).
Proof. vm_compute. repeat split. Qed.

(** C6, amended.  For every world, configuration and company URL, the
    direct-path tier returns [found] exactly when the configured paths
    split into [before], [p], [after] such that the probe of [p] answers
    with status 200 and a final address [found] whose lowercased form
    holds a configured keyword as the configuration writes it, and every
    probe before it was a [RequestException], a status other than 200, or
    an address without such a keyword; it returns [None] exactly when
    every probe is of that last kind; the HEAD requests sent are those of
    [before] and [p], in order; the store is left alone.  When the
    keywords are written in lower case the keyword test is the one that
    ignores letter case. *)
Theorem C6_direct_paths_first_hit_wins :
  forall w config company_url s,
    let out := CareerPageFinder.find_via_direct_paths w config company_url s in
    let target p := PyStr.rstrip_slash company_url ++ p in
    let hits := probe_hits w (career_keywords config) in
    let misses := probe_misses w (career_keywords config) in
    (forall found,
       result_of out = Ok (Some found)
       <-> exists before p after,
             career_paths config = (before ++ p :: after)%list
             /\ hits (target p) found
             /\ (forall q, In q before -> misses (target q)))
    /\ (result_of out = Ok None
        <-> forall p, In p (career_paths config) -> misses (target p))
    /\ (forall before p after found,
          career_paths config = (before ++ p :: after)%list ->
          hits (target p) found ->
          (forall q, In q before -> misses (target q)) ->
          filter is_head_request (events_of out)
          = map (fun q => HttpHead (target q)) (before ++ [p]))
    /\ store_of out = s
    /\ (Forall (fun k => PyStr.lower k = k) (career_keywords config) ->
        forall url,
          has_career_keyword (career_keywords config) url
          <-> Claimed.contains_keyword (career_keywords config) url = true).
Proof.
  intros w config url s out target hits misses. subst out.
  rewrite find_via_direct_paths_loop.
  pose proof (direct_paths_loop_found w config url (career_paths config) s)
    as Hfound.
  pose proof (direct_paths_loop_absent w config url (career_paths config) s)
    as Habsent.
  pose proof (direct_paths_loop_store w config url (career_paths config) s)
    as Hstore.
  pose proof (direct_paths_loop_requests w config url) as Hreq.
  cbv beta zeta in Hfound, Habsent, Hstore, Hreq.
  destruct (for_return (career_paths config) _ s) as [[r s'] t] eqn:Hloop.
  unfold result_of, store_of, events_of in *. simpl in *.
  split; [exact Hfound |]. split; [exact Habsent |].
  split; [| split; [exact Hstore |]].
  - intros before p after found Hsplit Hhit Hmiss.
    specialize (Hreq before p after s found Hhit Hmiss).
    rewrite <- Hsplit, Hloop in Hreq. simpl in Hreq. rewrite Hreq.
    cbn [filter is_head_request]. apply filter_head_requests.
  - intros Hlow page. rewrite Forall_forall in Hlow.
    unfold has_career_keyword, Claimed.contains_keyword.
    rewrite existsb_exists.
    split; intros [k [Hin Hk]]; exists k; split; try assumption.
    + rewrite (Hlow k Hin). exact Hk.
    + rewrite (Hlow k Hin) in Hk. exact Hk.
Qed.

Example careers_wins_over_jobs :
  let out := CareerPageFinder.find_via_direct_paths Example.world
               Example.two_paths "https://acme.com" new_store in
  requests_head Example.world "https://acme.com/jobs"
  = Example.found "https://acme.com/jobs" Example.empty_document
  /\ result_of out = Ok (Some "https://acme.com/careers")
  /\ events_of out
     = [ Call "find_via_direct_paths"; HttpHead "https://acme.com/careers" ].
Proof. vm_compute. repeat split. Qed.

Example hooli_skips_error_and_redirect :
  let out := CareerPageFinder.find_via_direct_paths Example.world
               Example.config "https://hooli.com" new_store in
  result_of out = Ok (Some "https://hooli.com/about/Careers")
  /\ filter is_head_request (events_of out)
     = [ HttpHead "https://hooli.com/careers"; HttpHead "https://hooli.com/jobs";
         HttpHead "https://hooli.com/about/careers" ].
Proof. vm_compute. repeat split. Qed.

(* ------------------------------------------------------------------ *)
(** *** Tier 2: footer links, then nav links, then every link *)
(* ------------------------------------------------------------------ *)




Lemma for_first_ext {A B} (xs : list A) (f g : A -> option B) :
  (forall x, f x = g x) -> for_first xs f = for_first xs g.
Proof.
  intros H. induction xs as [| x xs IH]; simpl; [reflexivity |].
  rewrite H, IH. reflexivity.
Qed.



















Example empty_href_falls_through :
  CareerPageFinder.check_footer_nav Example.config Example.empty_href
  = Some EmptyString
  /\ result_of (CareerPageFinder.scrape_homepage Example.world Example.config
                  "https://emptyhref.example" new_store)
     = Ok (Some "https://emptyhref.example").
Proof. vm_compute. repeat split. Qed.

(* ------------------------------------------------------------------ *)
(** *** Position extraction: first href of the first selector *)
(* ------------------------------------------------------------------ *)

Lemma extract_job_url_offers element h :
  PositionExtractor._extract_job_url element = Some h <-> offers element h.
Proof.
  unfold PositionExtractor._extract_job_url, offers.
  destruct (get_attribute_href element) as [[href |] | e].
  - destruct (PyStr.truthy href) eqn:Ht; simpl.
    + destruct (PyStr.startswith href "javascript:") eqn:H1; simpl.
      { split; [discriminate |]. intros [Hh [_ [H _]]].
        injection Hh as ->. congruence. }
      destruct (PyStr.startswith href "mailto:") eqn:H2; simpl.
      { split; [discriminate |]. intros [Hh [_ [_ [H _]]]].
        injection Hh as ->. congruence. }
      destruct (PyStr.startswith href "#") eqn:H3; simpl.
      { split; [discriminate |]. intros [Hh [_ [_ [_ H]]]].
        injection Hh as ->. congruence. }
      split.
      * intros H. injection H as <-. repeat split; try assumption.
        intros ->. discriminate.
      * intros [Hh _]. injection Hh as ->. reflexivity.
    + split; [discriminate |]. intros [Hh [Hne _]].
      injection Hh as ->. destruct h; [congruence | discriminate].
  - split; [discriminate | intros [H _]; discriminate].
  - split; [discriminate | intros [H _]; discriminate].
Qed.


Lemma extract_job_url_truthy element h :
  PositionExtractor._extract_job_url element = Some h ->
  PyStr.if_result (Some h) = Some h.
Proof.
  intros H. apply extract_job_url_offers in H. destruct H as [_ [Hne _]].
  destruct h; [congruence | reflexivity].
Qed.

(** The inner loop, started with nothing found, stops at the first offer. *)
Lemma scan_elements_first_offer elements :
  PositionExtractor.scan_elements elements []
  = match first_offer elements with
    | Some h => inl [h]
    | None => inr []
    end.
Proof.
  unfold first_offer. induction elements as [| el rest IH]; [reflexivity |].
  cbn [PositionExtractor.scan_elements for_first].
  destruct (PositionExtractor._extract_job_url el) as [h |] eqn:E.
  - rewrite (extract_job_url_truthy el h E). reflexivity.
  - cbn [PyStr.if_result]. exact IH.
Qed.





(** The outer loop, one selector at a time. *)
Lemma scan_selectors_cons page selector rest s :
  PositionExtractor.scan_selectors page (selector :: rest) [] s
  = match selector_answer page selector with
    | Some h => (Ok [h], s, [QuerySelectorAll selector])
    | None =>
        match PositionExtractor.scan_selectors page rest [] s with
        | (r, s', t) => (r, s', QuerySelectorAll selector :: t)
        end
    end.
Proof.
  cbn [PositionExtractor.scan_selectors].
  unfold selector_answer, bind at 1, try_except, bind, external, ret,
    any_exception.
  destruct (query_selector_all page selector) as [elements | e].
  - rewrite scan_elements_first_offer.
    destruct (first_offer elements) as [h |]; [reflexivity |].
    destruct (PositionExtractor.scan_selectors page rest [] s) as [[r s'] t].
    reflexivity.
  - destruct (PositionExtractor.scan_selectors page rest [] s) as [[r s'] t].
    reflexivity.
Qed.



Lemma scan_selectors_run page selectors s :
  PositionExtractor.scan_selectors page selectors [] s
  = (Ok match first_answer page selectors with
        | Some h => [h]
        | None => []
        end,
     s, map QuerySelectorAll (queried page selectors)).
Proof.
  unfold first_answer. induction selectors as [| selector rest IH];
    [reflexivity |].
  rewrite scan_selectors_cons. cbn [for_first queried map].
  destruct (selector_answer page selector) as [h |]; [reflexivity |].
  rewrite IH. reflexivity.
Qed.


(** [extract_first_position], by what the browser answers. *)
Lemma extract_first_position_run w selectors url s :
  let opening :=
    [ Log INFO ("Extracting position from " ++ url); Goto url ] in
  PositionExtractor.extract_first_position w selectors url s
  = match browser_goto w url with
    | Raise e =>
        (Ok None, s,
         (opening
          ++ [ Log ERROR (("Navigation failed for " ++ url) ++ " | "
                          ++ exn_name e ++ ": " ++ exn_text e) ])%list)
    | Ok page =>
        let queries := map QuerySelectorAll (queried page selectors) in
        match page_close page with
        | Raise e =>
            (Ok None, s,
             (opening ++ queries
              ++ [ PageClose;
                   Log ERROR (("Position extraction failed for " ++ url)
                              ++ " | " ++ exn_name e ++ ": " ++ exn_text e) ])%list)
        | Ok _ =>
            match first_answer page selectors with
            | Some h =>
                match urljoin w url h with
                | JoinOk joined =>
                    (Ok (Some joined), s,
                     (opening ++ queries
                      ++ [ PageClose;
                           Log INFO ("Found position: " ++ joined) ])%list)
                | ValueError text =>
                    (Ok None, s,
                     (opening ++ queries
                      ++ [ PageClose;
                           Log ERROR (("Position extraction failed for " ++ url)
                                      ++ " | " ++ "ValueError" ++ ": "
                                      ++ text) ])%list)
                end
            | None =>
                (Ok None, s,
                 (opening ++ queries
                  ++ [ PageClose;
                       Log WARNING ("No job links found on " ++ url) ])%list)
            end
        end
    end.
Proof.
  intros opening. subst opening.
  unfold PositionExtractor.extract_first_position,
    PositionExtractor.navigate_to_page, PositionExtractor.find_job_links,
    PositionExtractor.make_absolute_url, call_urljoin.
  unfold bind at 1. unfold logger_info at 1, emit at 1.
  unfold try_except at 1. unfold bind at 1. unfold try_except at 1.
  unfold bind at 1, external at 1.
  destruct (browser_goto w url) as [page | e]; [| reflexivity].
  cbn [ret any_exception]. unfold bind at 1. rewrite scan_selectors_run.
  unfold bind at 1, external at 1.
  destruct (page_close page) as [[] | e]; cbn.
  - destruct (first_answer page selectors) as [h |]; cbn.
    + unfold bind, lift. destruct (urljoin w url h) as [joined | text]; cbn;
        rewrite ?app_nil_r, <- ?app_assoc; reflexivity.
    + rewrite ?app_nil_r, <- ?app_assoc; reflexivity.
  - rewrite ?app_nil_r, <- ?app_assoc. reflexivity.
Qed.







(** An href that [urljoin] cannot join: tier 2 lets the [ValueError]
    out, position extraction catches it and returns [None]. *)
Example unjoinable_href :
  result_of (CareerPageFinder.scrape_homepage Example.world Example.config
               "https://bracket.example" new_store)
  = Raise (Exception "ValueError" "Invalid IPv6 URL")
  /\ result_of (PositionExtractor.extract_first_position Example.world
                  PositionExtractor.JOB_SELECTORS
                  "https://bracket.example/careers" new_store)
     = Ok None.
Proof. vm_compute. repeat split. Qed.

Example globex_sixth_selector :
  let out := PositionExtractor.extract_first_position Example.world
               PositionExtractor.JOB_SELECTORS "https://globex.com/careers"
               new_store in
  result_of out = Ok (Some "https://globex.com/careers/123")
  /\ filter is_selector_query (events_of out)
     = map QuerySelectorAll (firstn 6 PositionExtractor.JOB_SELECTORS).
Proof. vm_compute. repeat split. Qed.

(* ------------------------------------------------------------------ *)
(** *** The bound of a run, and the tier written in a result *)
(* ------------------------------------------------------------------ *)

Lemma idle_ret {A} (a : A) : idle (ret a).
Proof. intros s. split; reflexivity. Qed.

Lemma idle_bind {A B} (m : M A) (f : A -> M B) :
  idle m -> (forall a, idle (f a)) -> idle (bind m f).
Proof.
  intros Hm Hf s. unfold bind, store_of, events_of.
  destruct (Hm s) as [Hr Ht]. unfold store_of, events_of in Hr, Ht.
  destruct (m s) as [[[a | e] s1] t1]; cbn [fst snd] in *.
  - destruct (Hf a s1) as [Hr2 Ht2]. unfold store_of, events_of in Hr2, Ht2.
    destruct (f a s1) as [[r2 s2] t2]. cbn [fst snd] in *. split.
    + congruence.
    + rewrite filter_app, Ht, Ht2. reflexivity.
  - split; assumption.
Qed.

Lemma idle_try_except {A} (m : M A) catches (h : exn -> M A) :
  idle m -> (forall e, idle (h e)) -> idle (try_except m catches h).
Proof.
  intros Hm Hh s. unfold try_except, store_of, events_of.
  destruct (Hm s) as [Hr Ht]. unfold store_of, events_of in Hr, Ht.
  destruct (m s) as [[[a | e] s1] t1]; cbn [fst snd] in *.
  - split; assumption.
  - destruct (catches e); cbn [fst snd]; [| split; assumption].
    destruct (Hh e s1) as [Hr2 Ht2]. unfold store_of, events_of in Hr2, Ht2.
    destruct (h e s1) as [[r2 s2] t2]. cbn [fst snd] in *. split.
    + congruence.
    + rewrite filter_app, Ht, Ht2. reflexivity.
Qed.

Lemma idle_emit e : is_outcome_event e = false -> idle (emit e).
Proof. intros He s. split; [reflexivity |]. simpl. rewrite He. reflexivity. Qed.

Lemma idle_external {A} e (o : Outcome A) :
  is_outcome_event e = false -> idle (external e o).
Proof. intros He s. split; [reflexivity |]. simpl. rewrite He. reflexivity. Qed.

Lemma idle_modify f :
  (forall s, results (f s) = results s) -> idle (modify f).
Proof. intros Hf s. split; [apply Hf | reflexivity]. Qed.

Lemma idle_lift {A} (o : Outcome A) : idle (lift o).
Proof. intros s. split; reflexivity. Qed.

Ltac idle_step :=
  match goal with
  | |- idle (bind _ _) => apply idle_bind; [| intros ?]
  | |- idle (lift _) => apply idle_lift
  | |- idle (try_except _ _ _) => apply idle_try_except; [| intros ?]
  | |- idle (ret _) => apply idle_ret
  | |- idle (emit _) => apply idle_emit; reflexivity
  | |- idle (external _ _) => apply idle_external; reflexivity
  | |- idle (modify _) => apply idle_modify; intros ?; reflexivity
  | |- idle (if ?b then _ else _) => destruct b
  | |- idle (match ?x with _ => _ end) => destruct x
  end.

Lemma idle_get_store : idle get_store.
Proof. intros s. split; reflexivity. Qed.

Lemma idle_save_to_json w config filename :
  idle (OutputManager.save_to_json w config filename).
Proof.
  unfold OutputManager.save_to_json, logger_info. cbv zeta.
  pose proof idle_get_store. repeat idle_step; auto.
Qed.

Lemma idle_validate_inputs config url max_companies :
  idle (JobSourcePipeline._validate_inputs config url max_companies).
Proof.
  unfold JobSourcePipeline._validate_inputs, logger_error, logger_warning.
  repeat idle_step.
Qed.

Lemma idle_fetch_job_listings w url limit :
  idle (LinkedInFetcher.fetch_job_listings w url limit).
Proof.
  unfold LinkedInFetcher.fetch_job_listings, LinkedInFetcher._make_api_request,
    LinkedInFetcher._track_api_cost, stats_add_linkedin_api_call,
    logger_info, logger_error.
  repeat idle_step.
Qed.

Lemma idle_extract_loop w raw companies :
  idle (LinkedInFetcher.extract_loop w raw companies).
Proof.
  revert companies. induction raw as [| item rest IH]; intros companies.
  - apply idle_ret.
  - cbn [LinkedInFetcher.extract_loop].
    unfold LinkedInFetcher.extract_one, logger_warning.
    repeat idle_step; apply IH.
Qed.


(** With [max_companies = 0] no company is processed, in any world. *)
Lemma run_with_zero_processes_nothing w config url s :
  let out := JobSourcePipeline.run w config url 0 s in
  results (store_of out) = results s
  /\ filter is_outcome_event (events_of out) = [].
Proof.
  assert (H : idle (JobSourcePipeline.run w config url 0)).
  { unfold JobSourcePipeline.run.
    pose proof (idle_validate_inputs config url 0).
    pose proof (idle_fetch_job_listings w url 0).
    pose proof (idle_extract_loop w).
    pose proof (idle_save_to_json w config).
    unfold LinkedInFetcher.extract_company_data, PositionExtractor.close,
      logger_save_logs, logger_info, logger_error.
    repeat idle_step; auto. apply idle_ret. }
  exact (H s).
Qed.

(** The upper side is held by the fetcher itself, which asks the actor
    for [min(limit, 50)] items. *)
Example fetch_caps_at_fifty :
  filter is_actor_call
    (events_of (JobSourcePipeline.run Example.world Example.config
                  Example.search_url 100 new_store))
  = [ActorCall Example.search_url 50].
Proof. vm_compute. reflexivity. Qed.

(** C3, at the failing input. [run] with [max_companies = 0] asks the
    actor for 0 items and processes no company, where [max_companies = 1]
    asks for one and processes Acme: the value clamped inside
    [_validate_inputs] never reaches the fetch or the truncation. *)
Theorem C3_run_uses_the_unclamped_bound :
  let run0 := JobSourcePipeline.run Example.world Example.config
                Example.search_url 0 new_store in
  let run1 := JobSourcePipeline.run Example.world Example.config
                Example.search_url 1 new_store in
  filter is_actor_call (events_of run0) = [ActorCall Example.search_url 0]
  /\ results (store_of run0) = []
  /\ filter is_outcome_event (events_of run0) = []
  /\ filter is_actor_call (events_of run1) = [ActorCall Example.search_url 1]
  /\ map result_company_name (results (store_of run1)) = ["Acme"]
  /\ filter is_outcome_event (events_of run1) = [IncSuccess 1].
Proof. vm_compute. repeat split. Qed.

(** [_determine_tier] answers with the lowest tier whose counter is the
    largest of the three. *)
Lemma determine_tier_largest_counter s :
  let st := statistics s in
  let t1 := tier1_success st in
  let t2 := tier2_success st in
  let t3 := tier3_success st in
  (JobSourcePipeline._determine_tier s = 1 /\ t2 <= t1 /\ t3 <= t1)
  \/ (JobSourcePipeline._determine_tier s = 2 /\ t1 < t2 /\ t3 <= t2)
  \/ (JobSourcePipeline._determine_tier s = 3 /\ t1 < t3 /\ t2 < t3).
Proof.
  cbv zeta. unfold JobSourcePipeline._determine_tier.
  cbn [JobSourcePipeline.max_by_count snd fst].
  destruct (Z.ltb_spec (tier1_success (statistics s))
              (tier2_success (statistics s)));
    cbn [snd fst];
    [ destruct (Z.ltb_spec (tier2_success (statistics s))
                  (tier3_success (statistics s)))
    | destruct (Z.ltb_spec (tier1_success (statistics s))
                  (tier3_success (statistics s))) ];
    cbn [fst]; [right; right | right; left | right; right | left];
    repeat split; lia.
Qed.

(** C9, at the failing input. In a run of two companies where tier 1 finds
    the first and tier 2 the second, the last success recorded is of tier
    2, and the second result is assembled with [source_tier = 1]: the
    counters stand at 1, 1, 0 and the first largest is taken. *)
Theorem C9_source_tier_follows_the_largest_counter :
  let out := JobSourcePipeline.run Example.world Example.config
               Example.search_url 2 new_store in
  filter is_success_event (events_of out) = [IncSuccess 1; IncSuccess 2]
  /\ map (fun r => (result_company_name r, source_tier r))
       (results (store_of out))
     = [ ("Acme", 1); ("Globex", 1) ].
Proof. vm_compute. repeat split. Qed.

(** The case the claim singles out does hold: a run whose only company
    is found by tier 2. *)
Example only_company_by_tier_two :
  let out := JobSourcePipeline.process_companies Example.world Example.config
               [Example.globex] new_store in
  filter is_success_event (events_of out) = [IncSuccess 2]
  /\ map source_tier (results (store_of out)) = [2].
Proof. vm_compute. repeat split. Qed.

(** The company that is found a career page and no position is counted
    twice: once as a success of tier 3, once as a failure. *)
Example both_increments_for_one_company :
  let out := JobSourcePipeline.process_single_company Example.world
               Example.config Example.initech new_store in
  result_of out = Ok None
  /\ filter is_outcome_event (events_of out) = [IncSuccess 3; IncFailure]
  /\ total_processed (statistics (store_of out)) = 2
  /\ successful (statistics (store_of out)) = 1
  /\ failed (statistics (store_of out)) = 1.
Proof. vm_compute. repeat split. Qed.

(* ------------------------------------------------------------------ *)
(** *** Further properties of the components and of a whole run *)
(* ------------------------------------------------------------------ *)

Lemma rstrip_by_last f s c :
  last_char (PyStr.rstrip_by f s) = Some c -> f c = false.
Proof.
  revert c. induction s as [| a r IH]; intros c; [discriminate |].
  cbn [PyStr.rstrip_by].
  destruct (PyStr.rstrip_by f r) as [| b r'] eqn:E.
  - destruct (f a) eqn:Hfa; [discriminate |].
    cbn. intros H. injection H as <-. exact Hfa.
  - intros H. apply IH. exact H.
Qed.







Lemma prefix_append p x : String.prefix p (p ++ x) = true.
Proof.
  induction p as [| a p IH]; simpl; [destruct x; reflexivity |].
  destruct (ascii_dec a a); [exact IH | congruence].
Qed.

(** X1. [normalize] changes no store and emits nothing.  The address it
    returns never ends in a slash.  It hands [urlparse] an address that
    starts with http:// or https:// and nothing else, so two worlds whose
    parsers agree on such addresses normalise every input alike. *)
Theorem X1_normalize_drops_trailing_slashes :
  forall w url s,
    let out := URLValidator.normalize w url s in
    store_of out = s
    /\ events_of out = []
    /\ (forall u, result_of out = Ok u -> last_char u <> Some "/"%char)
    /\ (forall w',
          (forall a, PyStr.startswith a "http://" || PyStr.startswith a "https://"
                     = true -> urlparse w' a = urlparse w a) ->
          URLValidator.normalize w' url s = out).
Proof.
  intros w url s out. subst out. unfold URLValidator.normalize.
  set (arg := if negb _ then _ else _).
  assert (Harg : PyStr.startswith arg "http://"
                 || PyStr.startswith arg "https://" = true).
  { subst arg.
    destruct (PyStr.startswith (PyStr.strip url) "http://"
              || PyStr.startswith (PyStr.strip url) "https://") eqn:E;
      cbn [negb]; [exact E |].
    apply orb_true_iff. right. apply prefix_append. }
  repeat split.
  - destruct (urlparse w arg); reflexivity.
  - destruct (urlparse w arg); reflexivity.
  - intros u. destruct (urlparse w arg) as [p | e]; [| discriminate].
    unfold result_of. cbn [fst]. intros H. injection H as <-.
    intros Hl. apply rstrip_by_last in Hl. discriminate.
  - intros w' Hw. rewrite (Hw arg Harg). reflexivity.
Qed.

Example normalize_examples :
  result_of (URLValidator.normalize Example.world "  acme.com/careers// " new_store)
  = Ok "https://acme.com/careers"
  /\ result_of (URLValidator.normalize Example.world "http://acme.com/" new_store)
     = Ok "http://acme.com"
  /\ result_of (URLValidator.normalize Example.world EmptyString new_store)
     = Ok "https:".
Proof. vm_compute. repeat split. Qed.

(** What one call of [find_career_page_ai] can do: nothing beyond
    possibly building the client, or one answered request. *)
Lemma find_career_page_ai_effect w config url s :
  let out := ClaudeFallback.find_career_page_ai w config url s in
  (result_of out = Ok None
   /\ (store_of out = s \/ store_of out = set_client true s)
   /\ filter is_claude_count (events_of out) = [])
  \/ (exists response,
        ClaudeFallback.check_monthly_limit config s = true
        /\ PyStr.truthy (anthropic_api_key config) = true
        /\ messages_create w (ClaudeFallback._build_prompt url) = Ok response
        /\ result_of out = Ok (ClaudeFallback._parse_claude_response response)
        /\ store_of out
           = set_statistics add_claude_api_call
               (set_calls_this_month (calls_this_month s + 1)
                  (set_client true s))
        /\ filter is_claude_count (events_of out) = [IncClaudeCalls]).
Proof.
  cbv zeta.
  unfold ClaudeFallback.find_career_page_ai, ClaudeFallback.api_key,
    ClaudeFallback.increment_call_counter, stats_add_claude_api_call,
    try_except, bind, emit, get_store, logger_info, logger_warning,
    logger_error, external, modify, ret, any_exception.
  destruct (ClaudeFallback.check_monthly_limit config s) eqn:Hlimit;
    cbn [negb]; [| left; repeat split; left; reflexivity].
  destruct (PyStr.truthy (anthropic_api_key config)) eqn:Hkey;
    cbn [negb]; [| left; repeat split; left; reflexivity].
  destruct s as [st c1 c2 c3 calls cl api res]. cbn [client].
  destruct cl; cbn [negb].
  - destruct (messages_create w (ClaudeFallback._build_prompt url))
      as [response | e].
    + right. exists response. repeat split.
    + left. repeat split. left. reflexivity.
  - destruct (anthropic_new w (anthropic_api_key config)) as [[] | e0].
    + destruct (messages_create w (ClaudeFallback._build_prompt url))
        as [response | e].
      * right. exists response. repeat split.
      * left. repeat split. right. reflexivity.
    + left. repeat split. left. reflexivity.
Qed.



Example ai_answer_examples :
  ClaudeFallback._parse_claude_response {| content := [TextBlock " unknown "] |}
  = None
  /\ ClaudeFallback._parse_claude_response
       {| content := [TextBlock "https://acme.com/jobs"] |}
     = Some "https://acme.com/jobs"
  /\ ClaudeFallback._parse_claude_response
       {| content := [TextBlock "See https://acme.com/jobs"] |} = None
  /\ ClaudeFallback._parse_claude_response {| content := [] |} = None
  /\ ClaudeFallback._parse_claude_response
       {| content := [OtherBlock; TextBlock "https://acme.com/jobs"] |} = None.
Proof. vm_compute. repeat split. Qed.

(** X3. One call of [find_career_page_ai] moves [calls_this_month] by
    nothing or by one and [claude_api_calls] by the same amount; a counter
    at or below the ceiling stays at or below it; a client once built stays
    built; the result list, [api_calls_made] and the three outcome counters
    are left alone. *)
Theorem X3_one_ai_call_moves_the_budget_by_at_most_one :
  forall w config company_url s,
    let s' := store_of (ClaudeFallback.find_career_page_ai w config
                          company_url s) in
    calls_this_month s <= calls_this_month s' <= calls_this_month s + 1
    /\ calls_this_month s' - calls_this_month s
       = claude_api_calls (statistics s') - claude_api_calls (statistics s)
    /\ (calls_this_month s <= max_claude_calls config ->
        calls_this_month s' <= max_claude_calls config)
    /\ (client s = true -> client s' = true)
    /\ results s' = results s
    /\ api_calls_made s' = api_calls_made s
    /\ total_processed (statistics s') = total_processed (statistics s)
    /\ successful (statistics s') = successful (statistics s)
    /\ failed (statistics s') = failed (statistics s).
Proof.
  intros w config url s s'.
  destruct (find_career_page_ai_effect w config url s)
    as [[_ [[Hs | Hs] _]] | [response [Hlimit [_ [_ [_ [Hs _]]]]]]];
    fold s' in Hs; rewrite Hs; cbn -[Z.add Z.sub].
  - repeat split; try lia; auto.
  - repeat split; try lia; auto.
  - unfold ClaudeFallback.check_monthly_limit,
      ClaudeFallback.max_calls_per_month in Hlimit.
    apply Z.ltb_lt in Hlimit. repeat split; try lia; auto.
Qed.

(** X4. [_determine_tier] answers 1, 2 or 3; the counter of the tier it
    answers is the largest of the three, and every lower tier has a
    strictly smaller counter: among equal counters the lowest tier wins. *)
Theorem X4_determine_tier_is_the_lowest_largest_counter :
  forall s,
    let st := statistics s in
    let count tier :=
      if tier =? 1 then tier1_success st
      else if tier =? 2 then tier2_success st else tier3_success st in
    let t := JobSourcePipeline._determine_tier s in
    (t = 1 \/ t = 2 \/ t = 3)
    /\ (forall u, u = 1 \/ u = 2 \/ u = 3 -> count u <= count t)
    /\ (forall u, u = 1 \/ u = 2 \/ u = 3 -> u < t -> count u < count t).
Proof.
  intros s st count t. subst t count st.
  unfold JobSourcePipeline._determine_tier.
  cbn [JobSourcePipeline.max_by_count snd fst].
  destruct (Z.ltb_spec (tier1_success (statistics s))
              (tier2_success (statistics s)));
    cbn [snd fst];
    [ destruct (Z.ltb_spec (tier2_success (statistics s))
                  (tier3_success (statistics s)))
    | destruct (Z.ltb_spec (tier1_success (statistics s))
                  (tier3_success (statistics s))) ];
    cbn [fst];
    (split; [auto |]);
    split; intros u [-> | [-> | ->]]; cbn; lia.
Qed.





(** X7. When the URL is empty, does not start with [http], or the
    configuration holds no Apify token, [run] returns at once, whatever
    [max_companies] is: the store is the one it started from and the trace
    holds log entries only, exactly one of them an error. *)
Theorem X7_run_stops_on_invalid_input :
  forall w config linkedin_url max_companies s,
    PyStr.truthy linkedin_url && PyStr.startswith linkedin_url "http"
    && config_validate config = false ->
    let out := JobSourcePipeline.run w config linkedin_url max_companies s in
    result_of out = Ok tt
    /\ store_of out = s
    /\ filter (fun e => negb (is_log e)) (events_of out) = []
    /\ count_events is_error_log (events_of out) = 1.
Proof.
  intros w config url max s Hbad out. subst out.
  unfold JobSourcePipeline.run, JobSourcePipeline._validate_inputs.
  destruct (PyStr.truthy url); cbn [negb andb] in *; [| repeat split].
  destruct (PyStr.startswith url "http"); cbn [negb andb] in *;
    [| repeat split].
  rewrite Hbad. cbn [negb].
  destruct ((max <? 1) || (50 <? max)); repeat split.
Qed.

Lemma X7_witness :
  PyStr.truthy "linkedin.com/jobs" && PyStr.startswith "linkedin.com/jobs" "http"
  && config_validate Example.config = false
  /\ store_of (JobSourcePipeline.run Example.world Example.config
                 "linkedin.com/jobs" 20 new_store) = new_store.
Proof.
  split; [reflexivity |].
  exact (proj1 (proj2 (X7_run_stops_on_invalid_input Example.world
                         Example.config "linkedin.com/jobs" 20 new_store
                         eq_refl))).
Defined.

Example missing_token_stops_the_run :
  events_of (JobSourcePipeline.run Example.world
               (new_configuration EmptyString "sk-key")
               Example.search_url 70 new_store)
  = [ Log WARNING "max_companies 70 out of range, clamping to 1-50";
      Log ERROR "Configuration validation failed (check APIFY_TOKEN)" ].
Proof. vm_compute. reflexivity. Qed.

Lemma idle_for_return {A B} (xs : list A) (body : A -> M (option B)) :
  (forall x, idle (body x)) -> idle (for_return xs body).
Proof.
  intros Hb. induction xs as [| x xs IH]; simpl.
  - apply idle_ret.
  - apply idle_bind; [apply Hb |].
    intros [b |]; [apply idle_ret | exact IH].
Qed.

Lemma idle_find_via_direct_paths w config url :
  idle (CareerPageFinder.find_via_direct_paths w config url).
Proof.
  unfold CareerPageFinder.find_via_direct_paths, CareerPageFinder.probe_path.
  apply idle_bind; [apply idle_emit; reflexivity | intros _].
  apply idle_for_return. intros p. repeat idle_step.
Qed.

Lemma idle_scrape_homepage w config url :
  idle (CareerPageFinder.scrape_homepage w config url).
Proof.
  unfold CareerPageFinder.scrape_homepage, CareerPageFinder.scan_all_links,
    logger_error.
  repeat (idle_step || (apply idle_for_return; intros ?)).
Qed.

Lemma idle_find_career_page_ai w config url :
  idle (ClaudeFallback.find_career_page_ai w config url).
Proof.
  unfold ClaudeFallback.find_career_page_ai,
    ClaudeFallback.increment_call_counter, stats_add_claude_api_call,
    logger_warning, logger_info, logger_error.
  pose proof idle_get_store.
  repeat idle_step; auto.
Qed.

Lemma if_result_some o u :
  PyStr.if_result o = Some u -> o = Some u /\ u <> EmptyString.
Proof.
  destruct o as [v |]; [| discriminate]. cbn.
  destruct v; cbn; [discriminate |].
  intros H. injection H as <-. split; [reflexivity | discriminate].
Qed.

Lemma find_career_page_marks w config claude_fallback company_url s :
  success_marked s
    (CareerPageFinder.find_career_page w config claude_fallback company_url s).
Proof.
  destruct (normalize_run w company_url) as [o Hn].
  unfold CareerPageFinder.find_career_page.
  unfold bind at 1. rewrite Hn.
  destruct o as [url | e].
  2: { split; [reflexivity |]. right. split; [right; exists e |]; reflexivity. }
  destruct (find_via_direct_paths_run w config url) as [o1 [t1 [H1 _]]].
  destruct (scrape_homepage_run w config url) as [o2 [t2 [H2 _]]].
  assert (Hf1 : filter is_outcome_event t1 = []).
  { destruct (idle_find_via_direct_paths w config url s) as [_ H].
    rewrite H1 in H. exact H. }
  assert (Hf2 : filter is_outcome_event t2 = []).
  { destruct (idle_scrape_homepage w config url s) as [_ H].
    rewrite H2 in H. exact H. }
  unfold bind at 1. unfold logger_info at 1. unfold emit at 1.
  unfold bind at 1. rewrite H1.
  destruct o1 as [r1 | e1].
  2: { split; [reflexivity |]. right.
       split; [right; exists e1; reflexivity |].
       unfold events_of. cbn. exact Hf1. }
  destruct (PyStr.if_result r1) as [found |] eqn:E1.
  { apply if_result_some in E1. destruct E1 as [_ Hne].
    split; [reflexivity |]. left. exists found, 1.
    split; [reflexivity |]. split; [exact Hne |]. split; [auto |].
    unfold events_of. cbn. rewrite filter_app, Hf1. reflexivity. }
  unfold bind at 1. rewrite H2.
  destruct o2 as [r2 | e2].
  2: { split; [reflexivity |]. right.
       split; [right; exists e2; reflexivity |].
       unfold events_of. cbn. rewrite filter_app, Hf1. cbn. exact Hf2. }
  destruct (PyStr.if_result r2) as [found |] eqn:E2.
  { apply if_result_some in E2. destruct E2 as [_ Hne].
    split; [reflexivity |]. left. exists found, 2.
    split; [reflexivity |]. split; [exact Hne |]. split; [auto |].
    unfold events_of. cbn. rewrite filter_app, Hf1. cbn.
    rewrite filter_app, Hf2. reflexivity. }
  destruct claude_fallback.
  - destruct (idle_find_career_page_ai w config url s) as [Hr3 Hf3].
    destruct (find_career_page_ai_calls w config url s) as [_ [r3 Hres3]].
    unfold bind at 1.
    unfold result_of, store_of, events_of in Hr3, Hf3, Hres3.
    destruct (ClaudeFallback.find_career_page_ai w config url s)
      as [[o3 s3] t3]. cbn [fst snd] in Hr3, Hf3, Hres3. subst o3.
    destruct (PyStr.if_result r3) as [found |] eqn:E3.
    + apply if_result_some in E3. destruct E3 as [_ Hne].
      split; [exact Hr3 |]. left. exists found, 3.
      split; [reflexivity |]. split; [exact Hne |]. split; [auto |].
      unfold events_of. cbn. rewrite filter_app, Hf1. cbn.
      rewrite filter_app, Hf2. cbn. rewrite filter_app, Hf3. reflexivity.
    + split; [exact Hr3 |]. right. split; [left; reflexivity |].
      unfold events_of. cbn. rewrite filter_app, Hf1. cbn.
      rewrite filter_app, Hf2. cbn. rewrite filter_app, Hf3. reflexivity.
  - split; [reflexivity |]. right. split; [left; reflexivity |].
    unfold events_of. cbn. rewrite filter_app, Hf1. cbn.
    rewrite filter_app, Hf2. reflexivity.
Qed.

Lemma count_success_of_outcomes t :
  count_events is_success_event t
  = count_events is_success_event (filter is_outcome_event t)
  /\ count_events is_failure_event t
     = count_events is_failure_event (filter is_outcome_event t).
Proof.
  unfold count_events. induction t as [| e t [IH1 IH2]]; [split; reflexivity |].
  destruct e; cbn [filter is_outcome_event is_success_event is_failure_event
                   length]; split; try assumption; lia.
Qed.

(** X9. [find_career_page] never touches the result list or [failed].
    When it returns an address, the address is not empty and exactly one
    success was recorded, of tier 1, 2 or 3: [successful] and
    [total_processed] are each up by one.  Otherwise (no address, or an
    exception) no outcome was recorded and both counters stand as
    before. *)
Theorem X9_a_found_career_page_is_counted_once :
  forall w config claude_fallback company_url s,
    let out := CareerPageFinder.find_career_page w config claude_fallback
                 company_url s in
    let st := statistics s in
    let st' := statistics (store_of out) in
    results (store_of out) = results s
    /\ failed st' = failed st
    /\ match result_of out with
       | Ok (Some u) =>
           u <> EmptyString
           /\ successful st' = successful st + 1
           /\ total_processed st' = total_processed st + 1
           /\ exists tier,
                (tier = 1 \/ tier = 2 \/ tier = 3)
                /\ filter is_outcome_event (events_of out) = [IncSuccess tier]
       | _ =>
           successful st' = successful st
           /\ total_processed st' = total_processed st
           /\ filter is_outcome_event (events_of out) = []
       end.
Proof.
  intros w config fb url s out st st'.
  destruct (find_career_page_marks w config fb url s) as [Hres Hmark].
  fold out in Hres, Hmark.
  destruct (traced_find_career_page w config fb url s) as [Hrep _].
  fold out in Hrep. fold st' in Hrep. fold st in Hrep.
  destruct (replay_counts (events_of out) st) as [Ht [Hs Hf]].
  rewrite <- Hrep in Ht, Hs, Hf.
  destruct (count_success_of_outcomes (events_of out)) as [Hcs Hcf].
  assert (Hco : count_events is_outcome_event (events_of out)
                = count_events is_outcome_event
                    (filter is_outcome_event (events_of out))).
  { unfold count_events. clear. induction (events_of out) as [| e t IH];
      [reflexivity |].
    cbn [filter]. destruct (is_outcome_event e) eqn:E; cbn [filter length];
      [rewrite E; cbn [length]; lia | exact IH]. }
  rewrite Hcs in Hs. rewrite Hcf in Hf. rewrite Hco in Ht.
  destruct Hmark as [[u [tier [Hu [Hne [Htier Hev]]]]] | [Hnone Hev]];
    rewrite Hev in Ht, Hs, Hf; unfold count_events in Ht, Hs, Hf;
    cbn [filter is_outcome_event is_success_event is_failure_event length]
      in Ht, Hs, Hf.
  - split; [exact Hres |]. split; [lia |]. rewrite Hu.
    repeat split; try assumption; try lia. exists tier. split; assumption.
  - split; [exact Hres |]. split; [lia |].
    destruct Hnone as [-> | [e ->]]; repeat split; try lia; exact Hev.
Qed.

Lemma filter_failure_of_outcomes t :
  filter is_failure_event t
  = filter is_failure_event (filter is_outcome_event t).
Proof.
  induction t as [| e t IH]; [reflexivity |].
  destruct e; cbn [filter is_outcome_event is_failure_event]; congruence.
Qed.

Lemma filter_outcome_queries l :
  filter is_outcome_event (map QuerySelectorAll l) = [].
Proof. induction l as [| q l IH]; [reflexivity | exact IH]. Qed.

(** [extract_first_position] always hands back a value, leaves the store
    alone and settles nothing. *)
Lemma extract_first_position_quiet w selectors url s :
  exists p t,
    PositionExtractor.extract_first_position w selectors url s = (Ok p, s, t)
    /\ filter is_outcome_event t = [].
Proof.
  pose proof (extract_first_position_run w selectors url s) as Hrun.
  cbv zeta in Hrun. rewrite Hrun. clear Hrun.
  destruct (browser_goto w url) as [page | e].
  - destruct (page_close page) as [[] | e];
      [destruct (first_answer page selectors) as [h |];
       [destruct (urljoin w url h) |] |];
      eexists; eexists; (split; [reflexivity |]);
      rewrite !filter_app, filter_outcome_queries; reflexivity.
  - eexists; eexists. split; reflexivity.
Qed.

Lemma count_events_app f t1 t2 :
  count_events f (t1 ++ t2) = count_events f t1 + count_events f t2.
Proof.
  unfold count_events. rewrite filter_app, length_app. lia.
Qed.

Ltac at_most_one_success :=
  unfold events_of; cbn -[count_events filter app];
  rewrite ?count_events_cons, ?count_events_app, ?count_events_cons;
  cbn [is_success_event];
  change (count_events is_success_event []) with 0;
  lia.

Lemma process_single_company_settles w config company s :
  settled company s
    (JobSourcePipeline.process_single_company w config company s).
Proof.
  unfold JobSourcePipeline.process_single_company.
  unfold bind at 1. unfold logger_info at 1, emit at 1.
  unfold try_except at 1. unfold bind at 1.
  destruct (find_career_page_marks w config true (company_url company) s)
    as [Hres Hmark].
  unfold result_of, store_of, events_of in Hres, Hmark.
  destruct (CareerPageFinder.find_career_page w config true
              (company_url company) s) as [[o1 s1] t1].
  cbn [fst snd] in Hres, Hmark.
  assert (Hfail1 : filter is_failure_event t1 = []).
  { rewrite filter_failure_of_outcomes.
    destruct Hmark as [[u [tier [_ [_ [_ ->]]]]] | [_ ->]]; reflexivity. }
  assert (Hsucc1 : count_events is_success_event t1 <= 1).
  { destruct (count_success_of_outcomes t1) as [-> _].
    destruct Hmark as [[u [tier [_ [_ [_ ->]]]]] | [_ ->]];
      unfold count_events; cbn; lia. }
  destruct o1 as [r1 | e1].
  2: { (* the lookup raised: the handler counts the failure *)
       split; [exact Hres |]. right. split; [reflexivity |]. split.
       - unfold events_of. cbn. rewrite filter_app, Hfail1. reflexivity.
       - at_most_one_success. }
  destruct (PyStr.if_result r1) as [career |] eqn:E1.
  2: { split; [exact Hres |]. right. split; [reflexivity |]. split.
       - unfold events_of. cbn. rewrite filter_app, Hfail1. reflexivity.
       - at_most_one_success. }
  apply if_result_some in E1. destruct E1 as [-> Hcareer].
  destruct Hmark as [[u [tier [Hu [_ [_ Hev1]]]]] | [[Hn | [e Hn]] _]];
    [| discriminate | discriminate].
  unfold bind at 1.
  destruct (extract_first_position_quiet w PositionExtractor.JOB_SELECTORS
              career s1) as [p [t2 [Hrun2 Hev2]]].
  rewrite Hrun2.
  assert (Hfail2 : filter is_failure_event t2 = []).
  { rewrite filter_failure_of_outcomes, Hev2. reflexivity. }
  assert (Hsucc2 : count_events is_success_event t2 = 0).
  { destruct (count_success_of_outcomes t2) as [-> _]. rewrite Hev2.
    reflexivity. }
  destruct (PyStr.if_result p) as [position |] eqn:E2.
  2: { split; [exact Hres |]. right. split; [reflexivity |]. split.
       - unfold events_of. cbn. rewrite filter_app, Hfail1. cbn.
         rewrite filter_app, Hfail2. reflexivity.
       - at_most_one_success. }
  apply if_result_some in E2. destruct E2 as [_ Hposition].
  split; [exact Hres |]. left. eexists. split; [reflexivity |].
  split; [| split].
  - unfold assembled_from. cbn.
    split; [reflexivity |].
    split; [destruct career; [congruence | reflexivity] |].
    split; [destruct position; [congruence | reflexivity] |].
    destruct (determine_tier_largest_counter s1) as [[H _] | [[H _] | [H _]]];
      rewrite H; auto.
  - unfold events_of. cbn. rewrite filter_app, Hfail1. cbn.
    rewrite filter_app, Hfail2. reflexivity.
  - unfold events_of. cbn -[count_events filter app].
    match goal with
    | |- count_events is_success_event ?l = 1 =>
        destruct (count_success_of_outcomes l) as [-> _]
    end.
    cbn [app filter is_outcome_event].
    rewrite !filter_app, Hev1, Hev2. reflexivity.
Qed.


Lemma count_events_nonneg f t : 0 <= count_events f t.
Proof. unfold count_events. lia. Qed.

Lemma process_companies_gathers w config companies : forall s,
  gathered companies s
    (JobSourcePipeline.process_companies w config companies s).
Proof.
  induction companies as [| c rest IH]; intros s.
  - exists [], []. cbn. rewrite app_nil_r.
    repeat split; try constructor; discriminate.
  - cbn [JobSourcePipeline.process_companies]. unfold bind at 1.
    destruct (process_single_company_settles w config c s)
      as [Hres [[r [Hr [Hfrom [Hf Hs]]]] | [Hr [Hf Hs]]]];
      unfold result_of, store_of, events_of in Hres, Hr, Hf, Hs;
      destruct (JobSourcePipeline.process_single_company w config c s)
        as [[o1 s1] t1]; cbn [fst snd] in Hres, Hr, Hf, Hs; subst o1.
    + unfold bind at 1. cbn [modify].
      destruct (IH (append_result r s1))
        as [kept [added [Hadd [Hsub [Hall [Hn Hm]]]]]].
      unfold store_of, events_of in *.
      destruct (JobSourcePipeline.process_companies w config rest
                  (append_result r s1)) as [[o2 s2] t2].
      cbn [fst snd] in *. exists (c :: kept), (r :: added).
      unfold store_of, events_of. cbn [fst snd].
      split; [| split; [| split; [| split]]].
      * rewrite Hadd. cbn [results append_result]. rewrite Hres.
        rewrite <- app_assoc. reflexivity.
      * apply subseq_take. exact Hsub.
      * constructor; assumption.
      * rewrite !count_events_app. unfold count_events at 1. rewrite Hf.
        change (count_events is_failure_event []) with 0.
        cbn [length]. lia.
      * rewrite !count_events_app.
        change (count_events is_success_event []) with 0.
        cbn [length]. lia.
    + unfold bind at 1. cbn [ret].
      destruct (IH s1) as [kept [added [Hadd [Hsub [Hall [Hn Hm]]]]]].
      unfold store_of, events_of in *.
      destruct (JobSourcePipeline.process_companies w config rest s1)
        as [[o2 s2] t2].
      cbn [fst snd] in *. exists kept, added.
      unfold store_of, events_of. cbn [fst snd].
      split; [| split; [| split; [| split]]].
      * rewrite Hadd, Hres. reflexivity.
      * apply subseq_skip. exact Hsub.
      * exact Hall.
      * rewrite !count_events_app. unfold count_events at 1. rewrite Hf.
        change (count_events is_failure_event []) with 0.
        cbn [length]. lia.
      * rewrite !count_events_app.
        change (count_events is_success_event []) with 0.
        pose proof (count_events_nonneg is_success_event t1).
        cbn [length]. lia.
Qed.

(** X11. The loop of [run] appends to the result list and removes
    nothing from it.  The results appended stand, in order, for a
    subsequence of the companies, one result for each company kept, built
    as X10 says.  Results and recorded failures together are as many as
    the companies; the recorded successes are at least the results and at
    most the companies. *)
Theorem X11_results_follow_the_companies_in_order :
  forall w config companies s,
    let out := JobSourcePipeline.process_companies w config companies s in
    exists kept added,
      results (store_of out) = (results s ++ added)%list
      /\ subseq kept companies
      /\ Forall2 assembled_from kept added
      /\ Z.of_nat (length added)
         + count_events is_failure_event (events_of out)
         = Z.of_nat (length companies)
      /\ Z.of_nat (length added)
         <= count_events is_success_event (events_of out)
         <= Z.of_nat (length companies).
Proof. intros w config companies s. apply process_companies_gathers. Qed.








(** X13. [is_valid] never raises and changes no store.  It answers
    [True] exactly when the URL parses with a scheme and a host and its
    HEAD request comes back with status 200; a URL that does not parse so
    is turned down without any request, any other costs one HEAD request.
    [_check_status] gives the status of the answer, [0] for a
    [RequestException], and lets any other exception through (which
    [is_valid] then turns into [False]). *)
Theorem X13_is_valid_is_well_formed_and_answers_200 :
  forall w url s,
    let well_formed :=
      match urlparse w url with
      | Ok parsed => PyStr.truthy (scheme parsed) && PyStr.truthy (netloc parsed)
      | Raise _ => false
      end in
    let answers_200 :=
      match requests_head w url with
      | Ok response => status_code response =? 200
      | Raise _ => false
      end in
    URLValidator.is_valid w url s
    = (Ok (well_formed && answers_200), s,
       if well_formed then [HttpHead url] else [])
    /\ (forall e, requests_head w url = Raise e ->
          URLValidator._check_status w url s
          = (if is_request_exception e then Ok 0 else Raise e, s,
             [HttpHead url]))
    /\ (forall response, requests_head w url = Ok response ->
          URLValidator._check_status w url s
          = (Ok (status_code response), s, [HttpHead url])).
Proof.
  intros w url s well_formed answers_200. subst well_formed answers_200.
  unfold URLValidator.is_valid, URLValidator._check_status, try_except, bind, external, ret,
    any_exception.
  split; [| split].
  - destruct (urlparse w url) as [parsed | e]; [| reflexivity].
    destruct (PyStr.truthy (scheme parsed) && PyStr.truthy (netloc parsed));
      cbn [negb andb]; [| reflexivity].
    destruct (requests_head w url) as [response | e]; [reflexivity |].
    destruct (is_request_exception e); reflexivity.
  - intros e ->. destruct (is_request_exception e); reflexivity.
  - intros response ->. reflexivity.
Qed.

Lemma lower_ascii_idempotent c :
  PyStr.lower_ascii (PyStr.lower_ascii c) = PyStr.lower_ascii c.
Proof.
  destruct c as [[] [] [] [] [] [] [] []]; vm_compute; reflexivity.
Qed.

(** What begins a lowered string is in lower case itself. *)
Lemma prefix_of_lower k : forall x,
  String.prefix k (PyStr.lower x) = true -> PyStr.lower k = k.
Proof.
  induction k as [| a k IH]; intros x H; [reflexivity |].
  destruct x as [| b x]; [discriminate |].
  cbn [PyStr.lower String.prefix] in H.
  destruct (ascii_dec a (PyStr.lower_ascii b)) as [-> |]; [| discriminate].
  cbn [PyStr.lower]. rewrite lower_ascii_idempotent, (IH x H). reflexivity.
Qed.

Lemma contains_of_lower k : forall x,
  PyStr.contains k (PyStr.lower x) = true -> PyStr.lower k = k.
Proof.
  intros x. induction x as [| b x IH]; cbn [PyStr.lower PyStr.contains];
    intros H; apply orb_true_iff in H; destruct H as [H | H].
  - exact (prefix_of_lower k EmptyString H).
  - discriminate.
  - exact (prefix_of_lower k (String b x) H).
  - exact (IH H).
Qed.

Lemma keyword_test_lower_case_only keywords x :
  existsb (fun keyword => PyStr.contains keyword (PyStr.lower x)) keywords
  = true
  <-> exists k, In k keywords /\ PyStr.lower k = k
                /\ PyStr.contains k (PyStr.lower x) = true.
Proof.
  rewrite existsb_exists. split.
  - intros [k [Hin Hk]]. exists k. split; [exact Hin |].
    split; [exact (contains_of_lower k x Hk) | exact Hk].
  - intros [k [Hin [_ Hk]]]. exists k. split; assumption.
Qed.

(** X14. Both keyword tests compare the configured keywords as they are
    written against lowercased text: [_is_valid_career_page] against the
    lowercased URL, [_matches_career_keyword] against the lowercased string
    made of the text, a space and the URL.  So a keyword matches only if it
    is written in lower case, and a configuration whose keywords all hold
    a capital letter matches nothing.  [_is_valid_career_page] does not
    look at its [content] argument. *)
Theorem X14_a_keyword_matches_only_if_written_in_lower_case :
  forall config text url content,
    (CareerPageFinder._is_valid_career_page config url content = true
     <-> exists k, In k (career_keywords config)
                   /\ PyStr.lower k = k
                   /\ PyStr.contains k (PyStr.lower url) = true)
    /\ (CareerPageFinder._matches_career_keyword config text url = true
        <-> exists k, In k (career_keywords config)
                      /\ PyStr.lower k = k
                      /\ PyStr.contains k
                           (PyStr.lower (text ++ " " ++ url)) = true)
    /\ ((forall k, In k (career_keywords config) -> PyStr.lower k <> k) ->
        CareerPageFinder._is_valid_career_page config url content = false
        /\ CareerPageFinder._matches_career_keyword config text url = false).
Proof.
  intros config text url content.
  unfold CareerPageFinder._is_valid_career_page,
    CareerPageFinder._matches_career_keyword, CareerPageFinder.keywords.
  split; [| split].
  - apply keyword_test_lower_case_only.
  - apply keyword_test_lower_case_only.
  - intros Hcap. split.
    + destruct (existsb _ _) eqn:E; [| reflexivity].
      apply keyword_test_lower_case_only in E.
      destruct E as [k [Hin [Hlow _]]]. exfalso. exact (Hcap k Hin Hlow).
    + destruct (existsb _ _) eqn:E; [| reflexivity].
      apply keyword_test_lower_case_only in E.
      destruct E as [k [Hin [Hlow _]]]. exfalso. exact (Hcap k Hin Hlow).
Qed.

Example capital_keyword_never_matches :
  CareerPageFinder._is_valid_career_page
    {| apify_token := "t"; anthropic_api_key := "k";
       career_paths := ["/careers"]; career_keywords := ["Careers"];
       max_claude_calls := 50; request_timeout := 5;
       browser_timeout := 15000; output_dir := "./output" |}
    "https://acme.com/Careers" EmptyString = false
  /\ CareerPageFinder._is_valid_career_page Example.config
       "https://acme.com/CAREERS" EmptyString = true.
Proof. vm_compute. split; reflexivity. Qed.

Section Relational.
Variable R : Store -> Store -> list Event -> Prop.
Hypothesis R_refl : forall s, R s s [].
Hypothesis R_trans : forall s s1 s2 t1 t2,
  R s s1 t1 -> R s1 s2 t2 -> R s s2 (t1 ++ t2).

Lemma follows_ret {A} (a : A) : follows R (ret a).
Proof. intros s. apply R_refl. Qed.

Lemma follows_get_store : follows R get_store.
Proof. intros s. apply R_refl. Qed.

Lemma follows_lift {A} (o : Outcome A) : follows R (lift o).
Proof. intros s. apply R_refl. Qed.

Lemma follows_bind {A B} (m : M A) (f : A -> M B) :
  follows R m -> (forall a, follows R (f a)) -> follows R (bind m f).
Proof.
  intros Hm Hf s. unfold bind, store_of, events_of.
  pose proof (Hm s) as H1. unfold store_of, events_of in H1.
  destruct (m s) as [[[a | e] s1] t1]; cbn [fst snd] in *; [| exact H1].
  pose proof (Hf a s1) as H2. unfold store_of, events_of in H2.
  destruct (f a s1) as [[r2 s2] t2]. cbn [fst snd] in *.
  exact (R_trans _ _ _ _ _ H1 H2).
Qed.

Lemma follows_try_except {A} (m : M A) catches (h : exn -> M A) :
  follows R m -> (forall e, follows R (h e)) ->
  follows R (try_except m catches h).
Proof.
  intros Hm Hh s. unfold try_except, store_of, events_of.
  pose proof (Hm s) as H1. unfold store_of, events_of in H1.
  destruct (m s) as [[[a | e] s1] t1]; cbn [fst snd] in *; [exact H1 |].
  destruct (catches e); cbn [fst snd]; [| exact H1].
  pose proof (Hh e s1) as H2. unfold store_of, events_of in H2.
  destruct (h e s1) as [[r2 s2] t2]. cbn [fst snd] in *.
  exact (R_trans _ _ _ _ _ H1 H2).
Qed.

Lemma follows_for_return {A B} (xs : list A) (body : A -> M (option B)) :
  (forall x, follows R (body x)) -> follows R (for_return xs body).
Proof.
  intros Hb. induction xs as [| x xs IH]; cbn [for_return].
  - apply follows_ret.
  - apply follows_bind; [apply Hb |].
    intros [b |]; [apply follows_ret | exact IH].
Qed.

Lemma follows_emit e : (forall s, R s s [e]) -> follows R (emit e).
Proof. intros H s. apply H. Qed.

Lemma follows_external {A} e (o : Outcome A) :
  (forall s, R s s [e]) -> follows R (external e o).
Proof. intros H s. apply H. Qed.

Lemma follows_modify f : (forall s, R s (f s) []) -> follows R (modify f).
Proof. intros H s. apply H. Qed.

(** ** The pipeline, for a relation its leaves keep *)

Variable w : World.
Variable config : Configuration.
Hypothesis R_quiet : forall s e, is_quiet e = true -> R s s [e].
Hypothesis R_success : forall s tier,
  tier = 1 \/ tier = 2 \/ tier = 3 ->
  R s (success_recorded tier s) [IncSuccess tier].
Hypothesis R_failure : forall s,
  R s (set_statistics increment_failure s) [IncFailure].
Hypothesis R_result : forall s r, R s (append_result r s) [].
Hypothesis R_model : forall url,
  follows R (ClaudeFallback.find_career_page_ai w config url).
Hypothesis R_fetch : forall url limit,
  follows R (LinkedInFetcher.fetch_job_listings w url limit).

Ltac follows_step :=
  match goal with
  | |- follows R (bind _ _) => apply follows_bind; [| intros ?]
  | |- follows R (try_except _ _ _) => apply follows_try_except; [| intros ?]
  | |- follows R (ret _) => apply follows_ret
  | |- follows R get_store => apply follows_get_store
  | |- follows R (lift _) => apply follows_lift
  | |- follows R (for_return _ _) => apply follows_for_return; intros ?
  | |- follows R (emit _) =>
      apply follows_emit; intros ?; apply R_quiet; reflexivity
  | |- follows R (external _ _) =>
      apply follows_external; intros ?; apply R_quiet; reflexivity
  | |- follows R (if ?b then _ else _) => destruct b
  | |- follows R (match ?x with _ => _ end) => destruct x
  end.

Lemma follows_normalize url : follows R (URLValidator.normalize w url).
Proof.
  destruct (normalize_run w url) as [o Ho]. intros s. rewrite Ho.
  apply R_refl.
Qed.

Lemma follows_find_via_direct_paths url :
  follows R (CareerPageFinder.find_via_direct_paths w config url).
Proof.
  unfold CareerPageFinder.find_via_direct_paths, CareerPageFinder.probe_path.
  follows_step; [follows_step |].
  apply follows_for_return. intros p. repeat follows_step.
Qed.

Lemma follows_scrape_homepage url :
  follows R (CareerPageFinder.scrape_homepage w config url).
Proof.
  unfold CareerPageFinder.scrape_homepage, CareerPageFinder.scan_all_links,
    logger_error.
  repeat follows_step.
Qed.

(** The two increments of a success are one step for [R]. *)
Lemma follows_success {A} tier (k : M A) :
  tier = 1 \/ tier = 2 \/ tier = 3 ->
  follows R k ->
  follows R (modify (add_tier_success_count tier) ;;;
             stats_increment_success tier ;;; k).
Proof.
  intros Htier Hk s.
  unfold stats_increment_success. unfold bind, modify, emit.
  pose proof (Hk (success_recorded tier s)) as H2.
  pose proof (R_success s tier Htier) as H1.
  unfold success_recorded in *.
  destruct (k _) as [[r s2] t2]. unfold store_of, events_of in *.
  cbn [fst snd app] in *.
  exact (R_trans _ _ _ _ _ H1 H2).
Qed.

Lemma follows_find_career_page fallback url :
  follows R (CareerPageFinder.find_career_page w config fallback url).
Proof.
  unfold CareerPageFinder.find_career_page, CareerPageFinder.no_career_page,
    logger_info, logger_warning.
  apply follows_bind; [apply follows_normalize | intros company_url].
  apply follows_bind; [repeat follows_step | intros _].
  apply follows_bind; [apply follows_find_via_direct_paths | intros r1].
  destruct (PyStr.if_result r1);
    [apply follows_success; [auto | repeat follows_step] |].
  apply follows_bind; [apply follows_scrape_homepage | intros r2].
  destruct (PyStr.if_result r2);
    [apply follows_success; [auto | repeat follows_step] |].
  destruct fallback; [| repeat follows_step].
  apply follows_bind; [apply R_model | intros r3].
  destruct (PyStr.if_result r3);
    [apply follows_success; [auto | repeat follows_step] |].
  repeat follows_step.
Qed.

Lemma follows_scan_selectors page selectors : forall found,
  follows R (PositionExtractor.scan_selectors page selectors found).
Proof.
  induction selectors as [| selector rest IH]; intros found;
    cbn [PositionExtractor.scan_selectors].
  - apply follows_ret.
  - apply follows_bind; [repeat follows_step | intros r].
    destruct r; [apply follows_ret | apply IH].
Qed.

Lemma follows_extract_first_position selectors url :
  follows R (PositionExtractor.extract_first_position w selectors url).
Proof.
  unfold PositionExtractor.extract_first_position,
    PositionExtractor.navigate_to_page, PositionExtractor.find_job_links,
    logger_info, logger_warning, logger_error.
  pose proof (follows_scan_selectors).
  repeat follows_step; auto.
Qed.

Lemma follows_increment_failure : follows R stats_increment_failure.
Proof.
  intros s. unfold stats_increment_failure, bind, emit, modify, store_of,
    events_of. cbn [fst snd app]. apply R_failure.
Qed.

Lemma follows_process_single_company company :
  follows R (JobSourcePipeline.process_single_company w config company).
Proof.
  unfold JobSourcePipeline.process_single_company,
    JobSourcePipeline.handle_error, logger_info, logger_warning, logger_error.
  pose proof follows_increment_failure.
  pose proof (follows_find_career_page true).
  pose proof (follows_extract_first_position PositionExtractor.JOB_SELECTORS).
  repeat follows_step; auto.
Qed.

Lemma follows_process_companies companies :
  follows R (JobSourcePipeline.process_companies w config companies).
Proof.
  induction companies as [| c rest IH];
    cbn [JobSourcePipeline.process_companies].
  - apply follows_ret.
  - apply follows_bind; [apply follows_process_single_company | intros r].
    apply follows_bind; [| intros _; exact IH].
    destruct r; [| apply follows_ret].
    apply follows_modify. intros s. apply R_result.
Qed.

Lemma follows_extract_loop raw : forall companies,
  follows R (LinkedInFetcher.extract_loop w raw companies).
Proof.
  induction raw as [| item rest IH]; intros companies;
    cbn [LinkedInFetcher.extract_loop].
  - apply follows_ret.
  - unfold LinkedInFetcher.extract_one, logger_warning.
    repeat follows_step; apply IH.
Qed.

Lemma follows_run url max_companies :
  follows R (JobSourcePipeline.run w config url max_companies).
Proof.
  unfold JobSourcePipeline.run, JobSourcePipeline._validate_inputs,
    LinkedInFetcher.extract_company_data, OutputManager.save_to_json,
    PositionExtractor.close, logger_save_logs, logger_info, logger_warning,
    logger_error.
  pose proof follows_extract_loop.
  pose proof follows_process_companies.
  pose proof R_fetch.
  cbv zeta. repeat follows_step; auto.
Qed.

End Relational.

Lemma budget_kept_refl w config s : budget_kept w config s s [].
Proof. unfold budget_kept, count_events. cbn. repeat split; lia. Qed.

Lemma budget_kept_trans w config s s1 s2 t1 t2 :
  budget_kept w config s s1 t1 -> budget_kept w config s1 s2 t2 ->
  budget_kept w config s s2 (t1 ++ t2).
Proof.
  intros [A1 [B1 [C1 D1]]] [A2 [B2 [C2 D2]]]. unfold budget_kept.
  rewrite count_events_app, filter_app.
  pose proof (count_events_nonneg (is_answered_request w) t1).
  split; [lia |]. split; [lia |]. split; [auto |].
  intros H0. rewrite (D1 H0). apply D2.
  destruct H0 as [H0 | H0]; [left; lia | right; exact H0].
Qed.

Lemma budget_kept_quiet w config s e :
  is_quiet e = true -> budget_kept w config s s [e].
Proof.
  unfold budget_kept, count_events.
  destruct e; try discriminate; intros _; cbn; repeat split; lia.
Qed.

Lemma budget_kept_quiets w config s t :
  forallb is_quiet t = true -> budget_kept w config s s t.
Proof.
  induction t as [| e t IH]; [intros _; apply budget_kept_refl |].
  cbn [forallb]. intros H. apply andb_true_iff in H. destruct H as [He Ht].
  apply (budget_kept_trans w config s s s [e] t);
    [apply budget_kept_quiet; exact He | exact (IH Ht)].
Qed.

(** One call of the fallback: the counters move exactly when the request
    it sends is answered. *)
Lemma budget_kept_model w config url :
  follows (budget_kept w config)
    (ClaudeFallback.find_career_page_ai w config url).
Proof.
  intros s.
  unfold ClaudeFallback.find_career_page_ai, ClaudeFallback.api_key,
    ClaudeFallback.increment_call_counter, stats_add_claude_api_call,
    try_except, bind, emit, get_store, logger_info, logger_warning,
    logger_error, external, modify, ret, any_exception.
  destruct (ClaudeFallback.check_monthly_limit config s) eqn:Hlimit;
    cbn [negb]; [| apply budget_kept_quiets; reflexivity].
  unfold ClaudeFallback.check_monthly_limit,
    ClaudeFallback.max_calls_per_month in Hlimit. apply Z.ltb_lt in Hlimit.
  destruct (PyStr.truthy (anthropic_api_key config)) eqn:Hkey;
    cbn [negb]; [| apply budget_kept_quiets; reflexivity].
  assert (Hopen : forall P : Prop,
            max_claude_calls config <= calls_this_month s
            \/ PyStr.truthy (anthropic_api_key config) = false -> P).
  { intros P [H | H]; [lia | congruence]. }
  destruct s as [st c1 c2 c3 calls cl api res]. cbn [client calls_this_month] in *.
  unfold budget_kept, store_of, events_of, count_events.
  destruct cl; cbn [negb].
  - destruct (messages_create w (ClaudeFallback._build_prompt url))
      as [response | e] eqn:Hm;
      cbn -[Z.add ClaudeFallback._build_prompt]; rewrite ?Hm;
      cbn -[Z.add ClaudeFallback._build_prompt];
      repeat split; try lia; intros H; exact (Hopen _ H).
  - destruct (anthropic_new w (anthropic_api_key config)) as [[] | e0].
    + destruct (messages_create w (ClaudeFallback._build_prompt url))
        as [response | e] eqn:Hm;
        cbn -[Z.add ClaudeFallback._build_prompt]; rewrite ?Hm;
        cbn -[Z.add ClaudeFallback._build_prompt];
        repeat split; try lia; intros H; exact (Hopen _ H).
    + cbn -[Z.add]; repeat split; try lia; intros H; exact (Hopen _ H).
Qed.

Lemma budget_kept_fetch w config url limit :
  follows (budget_kept w config)
    (LinkedInFetcher.fetch_job_listings w url limit).
Proof.
  intros s.
  unfold LinkedInFetcher.fetch_job_listings, LinkedInFetcher._make_api_request,
    LinkedInFetcher._track_api_cost, LinkedInFetcher.validate_api_response,
    LinkedInFetcher.max_items, stats_add_linkedin_api_call,
    try_except, bind, emit, logger_info, logger_error, external, modify, ret,
    any_exception.
  unfold budget_kept, store_of, events_of, count_events.
  destruct (actor_call w url (Z.min limit 50)) as [[| item rest] | e];
    cbn -[Z.add Z.min PyStr.str_of_int LinkedInFetcher.two_digits append];
    repeat split; try lia.
Qed.

Lemma budget_kept_run w config url max_companies :
  follows (budget_kept w config)
    (JobSourcePipeline.run w config url max_companies).
Proof.
  apply (follows_run (budget_kept w config) (budget_kept_refl w config)
           (budget_kept_trans w config) w config).
  - intros s e. apply budget_kept_quiet.
  - intros s tier _. unfold budget_kept, count_events. cbn. repeat split; lia.
  - intros s. unfold budget_kept, count_events. cbn. repeat split; lia.
  - intros s r. unfold budget_kept, count_events. cbn. repeat split; lia.
  - apply budget_kept_model.
  - apply budget_kept_fetch.
Qed.

(** X16. Over a whole [run], [calls_this_month] and [claude_api_calls]
    both grow by the number of requests sent to the model
    ([messages.create] calls in the trace) that the model answered: a
    request that raises is sent and not counted.  A counter that starts at
    or below the ceiling ends at or below it; and when the run starts with
    the budget used up, or no API key is configured, nothing is sent to the
    model service for any company: no client, no prompt, no request. *)
Theorem X16_a_run_stays_within_the_monthly_budget :
  forall w config linkedin_url max_companies s,
    let out := JobSourcePipeline.run w config linkedin_url max_companies s in
    let sent := count_events is_model_request (events_of out) in
    let answered := count_events (is_answered_request w) (events_of out) in
    calls_this_month (store_of out) = calls_this_month s + answered
    /\ claude_api_calls (statistics (store_of out))
       = claude_api_calls (statistics s) + answered
    /\ 0 <= answered <= sent
    /\ (calls_this_month s <= max_claude_calls config ->
        calls_this_month (store_of out) <= max_claude_calls config)
    /\ (max_claude_calls config <= calls_this_month s ->
        filter is_ai_traffic (events_of out) = [])
    /\ (anthropic_api_key config = EmptyString ->
        filter is_ai_traffic (events_of out) = []).
Proof.
  intros w config url max_companies s out sent answered.
  destruct (budget_kept_run w config url max_companies s) as [A [B [C D]]].
  fold out in A, B, C, D.
  split; [exact A |]. split; [exact B |]. split; [| split; [exact C |]].
  - subst sent answered. split; [apply count_events_nonneg |].
    generalize (events_of out). intros t.
    induction t as [| e t IH]; [unfold count_events; cbn; lia |].
    rewrite !count_events_cons.
    destruct e; cbn [is_answered_request is_model_request]; try lia.
    destruct (messages_create w prompt); lia.
  - split.
    + intros H. apply D. left. exact H.
    + intros H. apply D. right. rewrite H. reflexivity.
Qed.

(** A run in which the model cannot be reached: the request goes out,
    the counters stay. *)
Example unanswered_request_is_not_counted :
  let out := JobSourcePipeline.process_companies Example.world Example.config
               [ {| company_name := "Umbrella";
                    company_url := "https://umbrella.example";
                    linkedin_job_url := EmptyString;
                    job_title := EmptyString |} ] new_store in
  count_events is_model_request (events_of out) = 1
  /\ count_events (is_answered_request Example.world) (events_of out) = 0
  /\ calls_this_month (store_of out) = 0
  /\ claude_api_calls (statistics (store_of out)) = 0.
Proof. vm_compute. repeat split. Qed.

Lemma counters_agree_refl s : counters_agree s s [].
Proof. unfold counters_agree, count_events. cbn. repeat split; lia. Qed.

Lemma counters_agree_trans s s1 s2 t1 t2 :
  counters_agree s s1 t1 -> counters_agree s1 s2 t2 ->
  counters_agree s s2 (t1 ++ t2).
Proof.
  unfold counters_agree. rewrite count_events_app.
  intros [A1 [B1 [C1 [D1 [E1 F1]]]]] [A2 [B2 [C2 [D2 [E2 F2]]]]].
  repeat split; lia.
Qed.

Lemma counters_agree_model w config url :
  follows counters_agree (ClaudeFallback.find_career_page_ai w config url).
Proof.
  intros s. unfold counters_agree.
  pose proof (count_events_nonneg is_actor_call
                (events_of (ClaudeFallback.find_career_page_ai w config
                              url s))) as Hn.
  revert Hn.
  generalize (count_events is_actor_call
                (events_of (ClaudeFallback.find_career_page_ai w config
                              url s))).
  intros n Hn.
  destruct (find_career_page_ai_effect w config url s)
    as [[_ [[Hs | Hs] _]] | [response [_ [_ [_ [_ [Hs _]]]]]]];
    rewrite Hs; destruct s as [st c1 c2 c3 calls cl api res];
    cbn -[Z.add Z.sub]; repeat split; lia.
Qed.

Lemma counters_agree_fetch w url limit :
  follows counters_agree (LinkedInFetcher.fetch_job_listings w url limit).
Proof.
  intros s.
  unfold LinkedInFetcher.fetch_job_listings, LinkedInFetcher._make_api_request,
    LinkedInFetcher._track_api_cost, LinkedInFetcher.validate_api_response,
    LinkedInFetcher.max_items, stats_add_linkedin_api_call,
    try_except, bind, emit, logger_info, logger_error, external, modify, ret,
    any_exception.
  unfold counters_agree, store_of, events_of, count_events.
  destruct (actor_call w url (Z.min limit 50)) as [[| item rest] | e];
    cbn -[Z.add Z.sub Z.min PyStr.str_of_int LinkedInFetcher.two_digits append];
    repeat split; lia.
Qed.

Lemma counters_agree_run w config url max_companies :
  follows counters_agree (JobSourcePipeline.run w config url max_companies).
Proof.
  apply (follows_run counters_agree counters_agree_refl counters_agree_trans
           w config).
  - intros s e He. unfold counters_agree, count_events.
    destruct e; try discriminate; cbn; repeat split; lia.
  - intros s tier [-> | [-> | ->]]; unfold counters_agree, count_events;
      cbn -[Z.add Z.sub]; repeat split; lia.
  - intros s. unfold counters_agree, count_events. cbn -[Z.add Z.sub].
    repeat split; lia.
  - intros s r. unfold counters_agree, count_events. cbn -[Z.add Z.sub].
    repeat split; lia.
  - apply counters_agree_model.
  - apply counters_agree_fetch.
Qed.

(** X17. Over a whole [run], each of the finder's own counters
    [tierN_success_count] grows by exactly as much as [tierN_success] of
    the shared statistics; [linkedin_api_calls] never shrinks and grows by
    no more than [api_calls_made], which grows by no more than the number
    of actor calls. *)
Theorem X17_component_counters_move_with_the_statistics :
  forall w config linkedin_url max_companies s,
    let out := JobSourcePipeline.run w config linkedin_url max_companies s in
    let s' := store_of out in
    let st := statistics s in
    let st' := statistics s' in
    tier1_success_count s' - tier1_success_count s
    = tier1_success st' - tier1_success st
    /\ tier2_success_count s' - tier2_success_count s
       = tier2_success st' - tier2_success st
    /\ tier3_success_count s' - tier3_success_count s
       = tier3_success st' - tier3_success st
    /\ 0 <= linkedin_api_calls st' - linkedin_api_calls st
    /\ linkedin_api_calls st' - linkedin_api_calls st
       <= api_calls_made s' - api_calls_made s
    /\ api_calls_made s' - api_calls_made s
       <= count_events is_actor_call (events_of out).
Proof.
  intros w config url max_companies s. cbv zeta.
  exact (counters_agree_run w config url max_companies s).
Qed.











(** A run on Acme alone: what it sends out and writes, log entries, HEAD
    requests and selector queries left aside. *)
Example run_writes_its_report :
  let out := JobSourcePipeline.run Example.world Example.config
               Example.search_url 1 new_store in
  result_of out = Ok tt
  /\ filter (fun e => negb (is_log e || is_head_request e
                           || is_selector_query e))
       (events_of out)
     = [ ActorCall Example.search_url 1; IncLinkedinCalls;
         Call "find_via_direct_paths"; IncSuccess 1;
         Goto "https://acme.com/careers"; PageClose;
         SaveJson "./output/job_sources_2025-01-15.json"; BrowserClose;
         SaveLogs "output/pipeline.log" ].
Proof. vm_compute. repeat split. Qed.


Lemma count_outcomes_split t :
  count_events is_outcome_event t
  = count_events is_success_event t + count_events is_failure_event t.
Proof.
  induction t as [| e t IH]; [reflexivity |].
  rewrite !count_events_cons, IH.
  destruct e; cbn [is_outcome_event is_success_event is_failure_event]; lia.
Qed.

(** X18. The statistics count outcomes, not companies.  After the loop
    over [n] companies, [failed] has grown by [n] less the results
    appended; [successful] by at least the results appended and at most
    [n]; and [total_processed] by [n] plus the successes that gave no
    result: a company whose career page is found and whose position is not
    is counted twice. *)
Theorem X18_statistics_count_outcomes_not_companies :
  forall w config companies s,
    let out := JobSourcePipeline.process_companies w config companies s in
    let st := statistics s in
    let st' := statistics (store_of out) in
    let n := Z.of_nat (length companies) in
    let added := Z.of_nat (length (results (store_of out)))
                 - Z.of_nat (length (results s)) in
    failed st' - failed st = n - added
    /\ added <= successful st' - successful st <= n
    /\ total_processed st' - total_processed st
       = n + (successful st' - successful st - added).
Proof.
  intros w config companies s out st st' n added.
  destruct (process_companies_gathers w config companies s)
    as [kept [new [Hadd [_ [_ [Hn Hm]]]]]].
  fold out in Hadd, Hn, Hm.
  destruct (traced_process_companies w config companies s) as [Hrep _].
  fold out in Hrep.
  destruct (replay_counts (events_of out) (statistics s)) as [H1 [H2 H3]].
  rewrite <- Hrep in H1, H2, H3. fold st st' in H1, H2, H3.
  rewrite count_outcomes_split in H1.
  assert (Ha : added = Z.of_nat (length new)).
  { subst added. rewrite Hadd, length_app. lia. }
  fold n in Hn, Hm. lia.
Qed.
